(** * The donation ledger ([BlockchainService]) and the donations route

    A shallow embedding of [utils/blockchain.js] (the hash-chained ledger), of
    the [POST api/donations] handler and of the [Donation] schema it saves
    through, together with the properties the specification states about them.

    Conventions of the embedding.
    - A JavaScript number of integer value is modelled by its value in [Z]
      (an amount, an index, a clock reading); the model covers the numbers
      that print in plain decimal digits.  The 32-bit operators ([<<], [&])
      are written out with their wrap-around ([toInt32]).  Where the code
      adds and subtracts amounts, the result is rounded as a double is
      ([number], [to_double]): to 53 significant bits, ties to even, with the
      infinities and [NaN].
    - A JavaScript string is a [string]; a character is its code unit, so the
      model covers strings whose code units are below 256.
    - [new Date()] is an input of the environment: every operation takes the
      clock readings it performs as arguments, one per [new Date()] in its
      body ([iso] for [toISOString()], [ms] for [getTime()]).
    - A function that can throw returns a [completion].
    - Promises are resolved at once: every [async] method of the ledger has a
      body without [await], and the route awaits each call before the next. *)

From Stdlib Require Import ZArith String Ascii List Bool Lia.
From Stdlib Require Import DecimalString HexadecimalString DecimalZ DecimalPos.
From stdpp Require Import base option list strings gmap.

Open Scope string_scope.
Open Scope Z_scope.

(** ** JavaScript primitives *)

Module Js.

(** [ToInt32]: reduction modulo 2^32 into the signed range. *)
Definition toInt32 (z : Z) : Z :=
  let m := z mod 2 ^ 32 in
  if m <? 2 ^ 31 then m else m - 2 ^ 32.

(** [a << k] on numbers. *)
Definition shl (a k : Z) : Z := toInt32 (Z.shiftl (toInt32 a) (k mod 32)).

(** [a & b] on numbers. *)
Definition band (a b : Z) : Z := Z.land (toInt32 a) (toInt32 b).

(** [s.charCodeAt(i)] for the character at that position. *)
Definition charCode (c : ascii) : Z := Z.of_N (N_of_ascii c).

(** [String(n)] for an integer-valued number: its decimal digits, with a
    leading minus sign when negative. *)
Definition Number_toString (n : Z) : string :=
  DecimalString.NilZero.string_of_int (Z.to_int n).

(** [n.toString(16)] for a non-negative integer: lower-case hexadecimal. *)
Definition Number_toString16 (n : Z) : string :=
  HexadecimalString.NilZero.string_of_uint (N.to_hex_uint (Z.to_N n)).

(** [parseFloat(s)] on the strings that spell an integer in decimal: that
    integer, which [double_of] below turns into the number; [None] is
    [NaN]. *)
Definition parseFloat (s : string) : option Z :=
  match DecimalString.NilZero.int_of_string s with
  | Some d => Some (Z.of_int d)
  | None => None
  end.

(** A JavaScript number as the sums of amounts need it: of integer value,
    an infinity, or [NaN]. *)
Inductive number : Type :=
| Finite (z : Z)
| Infinity (negative : bool)
| NaN.

(** The integer nearest to [z] among those with at most 53 significant
    bits, a tie going to the even significand: the rounding of an IEEE 754
    double, the exponent left unbounded. *)
Definition round53 (z : Z) : Z :=
  let a := Z.abs z in
  let s := Z.log2 a + 1 - 53 in
  if s <=? 0 then z
  else
    let q := Z.shiftr a s in
    let r := a mod 2 ^ s in
    let half := 2 ^ (s - 1) in
    let q' := if (half <? r) || ((r =? half) && Z.odd q) then q + 1 else q in
    Z.sgn z * Z.shiftl q' s.

(** The double for the exact integer [z]: [z] rounded, an infinity when the
    rounded value is beyond the largest double. *)
Definition to_double (z : Z) : number :=
  let r := round53 z in
  if 2 ^ 1024 <=? Z.abs r then Infinity (r <? 0) else Finite r.

(** [-x], [x + y] and [x - y] on numbers. *)
Definition number_neg (x : number) : number :=
  match x with
  | Finite a => Finite (- a)
  | Infinity negative => Infinity (negb negative)
  | NaN => NaN
  end.

Definition number_add (x y : number) : number :=
  match x, y with
  | NaN, _ | _, NaN => NaN
  | Finite a, Finite b => to_double (a + b)
  | Infinity negative, Finite _ | Finite _, Infinity negative => Infinity negative
  | Infinity n, Infinity m => if Bool.eqb n m then Infinity n else NaN
  end.

Definition number_sub (x y : number) : number := number_add x (number_neg y).

(** What [parseFloat] read, as a number: the double nearest to the integer
    the string spells, [NaN] when it spells none. *)
Definition double_of (read : option Z) : number :=
  match read with
  | Some z => to_double z
  | None => NaN
  end.

(** A thrown exception. *)
Inductive exn : Type :=
| TypeError (what : string)
| ValidationError (path : string)
| DuplicateKeyError (path : string).

(** The outcome of a call. *)
Inductive completion (A : Type) : Type :=
| Returned (a : A)
| Thrown (e : exn).
Arguments Returned {A} a.
Arguments Thrown {A} e.

(** The values a transaction's properties hold. *)
Inductive value : Type :=
| Num (n : Z)
| Str (s : string).

Definition quote : string := String (ascii_of_nat 34) EmptyString.
Definition backslash : string := String (ascii_of_nat 92) EmptyString.

Definition hexdigit (n : nat) : string :=
  String (ascii_of_nat (if (n <? 10)%nat then 48 + n else 87 + n)) EmptyString.

(** [JSON.stringify] on one character of a string (ECMA-262
    QuoteJSONString). *)
Definition JSON_escape (c : ascii) : string :=
  let n := nat_of_ascii c in
  if (n =? 34)%nat then backslash ++ quote
  else if (n =? 92)%nat then backslash ++ backslash
  else if (n =? 8)%nat then backslash ++ "b"
  else if (n =? 12)%nat then backslash ++ "f"
  else if (n =? 10)%nat then backslash ++ "n"
  else if (n =? 13)%nat then backslash ++ "r"
  else if (n =? 9)%nat then backslash ++ "t"
  else if (n <? 32)%nat
       then backslash ++ "u00" ++ hexdigit (n / 16) ++ hexdigit (n mod 16)
  else String c EmptyString.

Fixpoint JSON_escape_all (s : string) : string :=
  match s with
  | EmptyString => EmptyString
  | String c rest => JSON_escape c ++ JSON_escape_all rest
  end.

Definition JSON_quote (s : string) : string :=
  quote ++ JSON_escape_all s ++ quote.

Definition JSON_value (v : value) : string :=
  match v with
  | Num n => Number_toString n
  | Str s => JSON_quote s
  end.

(** Elements joined by commas, as in an object or an array. *)
Fixpoint JSON_join (parts : list string) : string :=
  match parts with
  | [] => EmptyString
  | [p] => p
  | p :: rest => p ++ "," ++ JSON_join rest
  end.

(** [JSON.stringify] of an object, given its own properties in insertion
    order. *)
Definition JSON_object (props : list (string * value)) : string :=
  "{" ++ JSON_join (map (fun kv => JSON_quote (fst kv) ++ ":" ++ JSON_value (snd kv)) props)
      ++ "}".

(** [o.k]: the property's value, or [undefined] ([None]). *)
Fixpoint get (props : list (string * value)) (k : string) : option value :=
  match props with
  | [] => None
  | (k', v) :: rest => if String.eqb k' k then Some v else get rest k
  end.

End Js.

Import Js.

(** ** Data of the ledger *)

(** The object literal of [addDonationTransaction] (lines 59-66). *)
Module Transaction.
Record t : Type := mk {
  fromAddress : string;
  toAddress : string;
  amount : Z;
  message : string;
  timestamp : string;
  transactionId : string
}.

(** The object's own properties, in the order the literal creates them. *)
Definition props (tx : t) : list (string * value) :=
  [ ("fromAddress", Str (fromAddress tx));
    ("toAddress", Str (toAddress tx));
    ("amount", Num (amount tx));
    ("message", Str (message tx));
    ("timestamp", Str (timestamp tx));
    ("transactionId", Str (transactionId tx)) ].

(** [tx.amount = a], the other properties kept. *)
Definition set_amount (a : Z) (tx : t) : t :=
  mk (fromAddress tx) (toAddress tx) a (message tx) (timestamp tx)
     (transactionId tx).
End Transaction.

(** The object literals of [createGenesisBlock] (lines 36-43) and
    [createNewBlock] (lines 124-131). *)
Module Block.
Record t : Type := mk {
  index : Z;
  timestamp : string;
  transactions : list Transaction.t;
  previousHash : string;
  hash : string;
  nonce : Z
}.

(** [block.transactions = txs], the other properties kept. *)
Definition set_transactions (txs : list Transaction.t) (b : t) : t :=
  mk (index b) (timestamp b) txs (previousHash b) (hash b) (nonce b).

(** [block.timestamp = ts], the other properties kept. *)
Definition set_timestamp (ts : string) (b : t) : t :=
  mk (index b) ts (transactions b) (previousHash b) (hash b) (nonce b).
End Block.

(** [JSON.stringify(transactions)] for an array of transactions. *)
Definition JSON_stringify (transactions : list Transaction.t) : string :=
  "[" ++ JSON_join (map (fun tx => JSON_object (Transaction.props tx)) transactions) ++ "]".

(** The fields of the service object (lines 10-11), by value. *)
Record BlockchainService : Type := mkService {
  chain : list Block.t;
  pendingTransactions : list Transaction.t
}.

(** ** Hashing *)

(** The loop of [sha256] (lines 89-93), from character [i] on. *)
Fixpoint sha256_loop (data : string) (hash : Z) : Z :=
  match data with
  | EmptyString => hash
  | String c rest =>
      let char := charCode c in
      let hash := (shl hash 5 - hash) + char in
      let hash := band hash hash in
      sha256_loop rest hash
  end.

(** [sha256(data)] (lines 83-96). *)
Definition sha256 (data : string) : string :=
  let hash := 0 in
  if (String.length data =? 0)%nat then Number_toString16 hash
  else Number_toString16 (Z.abs (sha256_loop data hash)).

(** The loop of [sha256] without the wrap to 32 bits. *)
Fixpoint sha256_exact (data : string) (hash : Z) : Z :=
  match data with
  | EmptyString => hash
  | String c rest => sha256_exact rest (31 * hash + charCode c)
  end.

(** [calculateHash(index, previousHash, transactions, timestamp, nonce)]
    (lines 139-142); callers that leave [nonce] out pass its default 0. *)
Definition calculateHash (index : Z) (previousHash : string)
    (transactions : list Transaction.t) (timestamp : string) (nonce : Z) : string :=
  let data := Number_toString index ++ previousHash ++ JSON_stringify transactions
              ++ timestamp ++ Number_toString nonce in
  sha256 data.

(** [generateTransactionId(from, to, amount)] (lines 75-78); [ms] is the
    reading of [new Date().getTime()]. *)
Definition generateTransactionId (from to : string) (amount : Z) (ms : Z) : string :=
  let data := from ++ to ++ Number_toString amount ++ Number_toString ms in
  sha256 data.

(** ** Operations of the ledger *)

(** [createGenesisBlock()] (lines 35-46); [iso1] is the clock reading stored
    in the block, [iso2] the one passed to [calculateHash]. *)
Definition createGenesisBlock (iso1 iso2 : string) (this : BlockchainService)
  : Block.t * BlockchainService :=
  let genesisBlock :=
    Block.mk 0 iso1 [] "0" (calculateHash 0 "0" [] iso2 0) 0 in
  (genesisBlock, mkService (chain this ++ [genesisBlock]) (pendingTransactions this)).

(** [initializeBlockchain()] (lines 21-30): its body has no [await], so it
    runs to its end inside the constructor. *)
Definition initializeBlockchain (iso1 iso2 : string) (this : BlockchainService)
  : BlockchainService :=
  if (length (chain this) =? 0)%nat then snd (createGenesisBlock iso1 iso2 this)
  else this.

(** [new BlockchainService()] (lines 9-15). *)
Definition new_BlockchainService (iso1 iso2 : string) : BlockchainService :=
  initializeBlockchain iso1 iso2 (mkService [] []).

(** [getLatestBlock()] (lines 51-53): [chain[chain.length - 1]], which is
    [undefined] on an empty array. *)
Definition getLatestBlock (this : BlockchainService) : option Block.t :=
  last (chain this).

(** [addDonationTransaction(donorId, charityId, amount, message)]
    (lines 58-70). *)
Definition addDonationTransaction (donorId charityId : string) (amount : Z)
    (message : string) (iso : string) (ms : Z) (this : BlockchainService)
  : Transaction.t * BlockchainService :=
  let transaction :=
    Transaction.mk donorId charityId amount message iso
      (generateTransactionId donorId charityId amount ms) in
  (transaction, mkService (chain this) (pendingTransactions this ++ [transaction])).

(** [createNewBlock(transactions)] (lines 117-134); reading [index] of an
    [undefined] latest block throws. *)
Definition createNewBlock (transactions : list Transaction.t) (iso : string)
    (this : BlockchainService) : completion Block.t :=
  match getLatestBlock this with
  | None => Thrown (TypeError "previousBlock is undefined")
  | Some previousBlock =>
      let newIndex := Block.index previousBlock + 1 in
      let timestamp := iso in
      let previousHash := Block.hash previousBlock in
      Returned (Block.mk newIndex timestamp transactions previousHash
                  (calculateHash newIndex previousHash transactions timestamp 0) 0)
  end.

(** [minePendingTransactions()] (lines 101-112). *)
Definition minePendingTransactions (iso : string) (this : BlockchainService)
  : completion (Block.t * BlockchainService) :=
  match createNewBlock (pendingTransactions this) iso this with
  | Thrown e => Thrown e
  | Returned block => Returned (block, mkService (chain this ++ [block]) [])
  end.

(** The loop of [isChainValid] (lines 199-218) from index [i], with [n]
    iterations left.  From [isChainValid] the indices [i] and [i - 1] are
    inside the array, so the last branch is never taken. *)
Fixpoint isChainValid_loop (chain : list Block.t) (i : nat) (n : nat) : bool :=
  match n with
  | O => true
  | S n' =>
      match chain !! i, chain !! (i - 1)%nat with
      | Some currentBlock, Some previousBlock =>
          if negb (String.eqb (Block.hash currentBlock)
                     (calculateHash (Block.index currentBlock)
                        (Block.previousHash currentBlock)
                        (Block.transactions currentBlock)
                        (Block.timestamp currentBlock)
                        (Block.nonce currentBlock)))
          then false
          else if negb (String.eqb (Block.previousHash currentBlock)
                          (Block.hash previousBlock))
          then false
          else isChainValid_loop chain (S i) n'
      | _, _ => true
      end
  end.

(** [isChainValid()] (lines 197-221): [i] runs from 1 to [chain.length - 1]. *)
Definition isChainValid (this : BlockchainService) : bool :=
  isChainValid_loop (chain this) 1 (length (chain this) - 1).

(** One step of the inner loop of [getBalanceOfAddress] (lines 171-177):
    [balance -= parseFloat(amount)], then [balance += parseFloat(amount)],
    each in double arithmetic. *)
Definition balance_step (address : string) (balance : number)
    (transaction : Transaction.t) : number :=
  let balance :=
    if String.eqb (Transaction.fromAddress transaction) address
    then number_sub balance
           (double_of (parseFloat (Number_toString (Transaction.amount transaction))))
    else balance in
  if String.eqb (Transaction.toAddress transaction) address
  then number_add balance
         (double_of (parseFloat (Number_toString (Transaction.amount transaction))))
  else balance.

(** [getBalanceOfAddress(address)] (lines 165-182): the blocks in chain
    order, the transactions of each in their order, from [balance = 0]. *)
Definition getBalanceOfAddress (address : string) (this : BlockchainService)
  : number :=
  fold_left (fun balance block =>
               fold_left (balance_step address) (Block.transactions block) balance)
            (chain this) (Finite 0).

(** [getTransactionsForAddress(address)] (lines 147-160). *)
Definition getTransactionsForAddress (address : string) (this : BlockchainService)
  : list Transaction.t :=
  fold_left (fun transactions block =>
               fold_left (fun transactions transaction =>
                            if String.eqb (Transaction.fromAddress transaction) address
                               || String.eqb (Transaction.toAddress transaction) address
                            then (transactions ++ [transaction])%list else transactions)
                         (Block.transactions block) transactions)
            (chain this) [].

(** ** Sequences of calls on the ledger *)

(** A call of one of the two mutating methods, with the clock readings the
    call makes. *)
Inductive Call : Type :=
| AddDonationTransaction (donorId charityId : string) (amount : Z)
    (message iso : string) (ms : Z)
| MinePendingTransactions (iso : string).

(** The service after one call. *)
Definition call (c : Call) (this : BlockchainService) : completion BlockchainService :=
  match c with
  | AddDonationTransaction donorId charityId amount message iso ms =>
      Returned (snd (addDonationTransaction donorId charityId amount message iso ms this))
  | MinePendingTransactions iso =>
      match minePendingTransactions iso this with
      | Returned (_, this') => Returned this'
      | Thrown e => Thrown e
      end
  end.

(** The service after a sequence of calls, in order. *)
Fixpoint run (calls : list Call) (this : BlockchainService)
  : completion BlockchainService :=
  match calls with
  | [] => Returned this
  | c :: rest =>
      match call c this with
      | Returned this' => run rest this'
      | Thrown e => Thrown e
      end
  end.

(** ** Corruption of stored blocks *)

(** [chain[i].transactions[j].amount = a] on an existing block and
    transaction. *)
Definition tamper_amount (i j : nat) (a : Z) (this : BlockchainService)
  : BlockchainService :=
  mkService
    (alter (fun b => Block.set_transactions
                       (alter (Transaction.set_amount a) j (Block.transactions b)) b)
           i (chain this))
    (pendingTransactions this).

(** [chain[0].transactions = txs; chain[0].timestamp = ts]: the genesis block
    altered, its stored [hash] kept. *)
Definition tamper_genesis (txs : list Transaction.t) (ts : string)
    (this : BlockchainService) : BlockchainService :=
  mkService
    (alter (fun b => Block.set_timestamp ts (Block.set_transactions txs b)) 0%nat
           (chain this))
    (pendingTransactions this).

(** ** The specification's view of balances and of block checks *)

(** All transactions of the chain, block after block. *)
Definition chain_transactions (this : BlockchainService) : list Transaction.t :=
  concat (map Block.transactions (chain this)).

Definition sum_amounts (txs : list Transaction.t) : Z :=
  foldr (fun tx s => Transaction.amount tx + s) 0 txs.

(** [sum(amount where to == X)] over the full chain. *)
Definition received (X : string) (this : BlockchainService) : Z :=
  sum_amounts (filter (fun tx => Transaction.toAddress tx = X) (chain_transactions this)).

(** [sum(amount where from == X)] over the full chain. *)
Definition sent (X : string) (this : BlockchainService) : Z :=
  sum_amounts (filter (fun tx => Transaction.fromAddress tx = X) (chain_transactions this)).

(** What one transaction adds to the balance of [X], and what it takes from
    it. *)
Definition credit (X : string) (tx : Transaction.t) : Z :=
  if String.eqb (Transaction.toAddress tx) X then Transaction.amount tx else 0.

Definition debit (X : string) (tx : Transaction.t) : Z :=
  if String.eqb (Transaction.fromAddress tx) X then Transaction.amount tx else 0.

(** The stored hash of a block is the hash of its own fields. *)
Definition hash_matches (b : Block.t) : Prop :=
  Block.hash b = calculateHash (Block.index b) (Block.previousHash b)
                   (Block.transactions b) (Block.timestamp b) (Block.nonce b).

(** Every block at an index [i >= 1] passes the hash check and the linkage
    check against the block before it. *)
Definition passes_checks (chain : list Block.t) : Prop :=
  forall (i : nat) (currentBlock previousBlock : Block.t),
    (1 <= i)%nat ->
    chain !! i = Some currentBlock ->
    chain !! (i - 1)%nat = Some previousBlock ->
    hash_matches currentBlock /\
    Block.previousHash currentBlock = Block.hash previousBlock.

(** The two checks of one iteration of [isChainValid] (lines 204-217), as
    one boolean. *)
Definition block_ok (previousBlock currentBlock : Block.t) : bool :=
  String.eqb (Block.hash currentBlock)
    (calculateHash (Block.index currentBlock) (Block.previousHash currentBlock)
       (Block.transactions currentBlock) (Block.timestamp currentBlock)
       (Block.nonce currentBlock))
  && String.eqb (Block.previousHash currentBlock) (Block.hash previousBlock).

(** The checks along a chain, each block against the one before it. *)
Fixpoint links_ok (previousBlock : Block.t) (rest : list Block.t) : bool :=
  match rest with
  | [] => true
  | currentBlock :: rest' =>
      block_ok previousBlock currentBlock && links_ok currentBlock rest'
  end.

(** What the constructor establishes and every call keeps: the chain has a
    first block and passes the checks from there on. *)
Definition chain_inv (this : BlockchainService) : Prop :=
  exists genesisBlock rest,
    chain this = genesisBlock :: rest /\ links_ok genesisBlock rest = true.

(** ** More readings of a sequence of calls and of a chain *)

(** The transactions that the calls of [addDonationTransaction] in a sequence
    create, in the order of the calls. *)
Fixpoint transactions_of_calls (calls : list Call) : list Transaction.t :=
  match calls with
  | [] => []
  | AddDonationTransaction donorId charityId amount message iso ms :: rest =>
      Transaction.mk donorId charityId amount message iso
        (generateTransactionId donorId charityId amount ms)
      :: transactions_of_calls rest
  | MinePendingTransactions _ :: rest => transactions_of_calls rest
  end.

(** The number of calls of [minePendingTransactions] in a sequence. *)
Fixpoint mines (calls : list Call) : nat :=
  match calls with
  | [] => 0%nat
  | AddDonationTransaction _ _ _ _ _ _ :: rest => mines rest
  | MinePendingTransactions _ :: rest => S (mines rest)
  end.

(** What a list of transactions adds, in all, to the balance of [X]. *)
Definition net (X : string) (txs : list Transaction.t) : Z :=
  foldr (fun tx s => credit X tx - debit X tx + s) 0 txs.

(** [chain[i].hash = h], the other properties kept. *)
Definition tamper_hash (i : nat) (h : string) (this : BlockchainService)
  : BlockchainService :=
  mkService
    (alter (fun b => Block.mk (Block.index b) (Block.timestamp b) (Block.transactions b)
                       (Block.previousHash b) h (Block.nonce b)) i (chain this))
    (pendingTransactions this).

(** [chain[i].previousHash = h], the other properties kept. *)
Definition tamper_previousHash (i : nat) (h : string) (this : BlockchainService)
  : BlockchainService :=
  mkService
    (alter (fun b => Block.mk (Block.index b) (Block.timestamp b) (Block.transactions b)
                       h (Block.hash b) (Block.nonce b)) i (chain this))
    (pendingTransactions this).

(** [chain.length = n] for an [n] below the length: the last blocks dropped. *)
Definition truncate_chain (n : nat) (this : BlockchainService) : BlockchainService :=
  mkService (take n (chain this)) (pendingTransactions this).

(** The index of each block is its position. *)
Definition indexed (this : BlockchainService) : Prop :=
  forall (i : nat) (b : Block.t), chain this !! i = Some b -> Block.index b = Z.of_nat i.

(** The absolute values of the amounts of a list of transactions, added
    up exactly: a bound on every partial sum a balance goes through. *)
Definition volume (txs : list Transaction.t) : Z :=
  foldr (fun tx s => Z.abs (Transaction.amount tx) + s) 0 txs.

(** ** The [Donation] model and the [POST api/donations] route *)

Module Route.

(** A document of the [User] collection, as far as the route reads it. *)
Record User : Type := mkUser {
  id : string;
  role : string;
  displayName : string
}.

(** [User.findById(id)]: the document, or [null] ([None]). *)
Definition findById (users : list User) (i : string) : option User :=
  List.find (fun u => String.eqb (id u) i) users.

(** The document built by [new Donation({...})] (lines 38-45 of the route);
    a path that was given [undefined] is [None].  The paths [status],
    [createdAt] and [allocation] take their defaults and are not read by
    the route's checks. *)
Record Donation : Type := mkDonation {
  donor : string;
  charity : string;
  amount : Z;
  message : option string;
  transactionId : option value;
  blockchainTxHash : option value
}.

(** Mongoose's [required: true] on a [String] path: the value, cast to a
    string, is present and not empty. *)
Definition required_string (v : option value) : bool :=
  match v with
  | None => false
  | Some (Str s) => negb (String.length s =? 0)%nat
  | Some (Num n) => negb (String.length (Number_toString n) =? 0)%nat
  end.

(** The validators of [DonationSchema] (lines 3-49 of the model), run by
    [save()]: the first failing path, if any.  [min: 0.01] is written on
    the integer amount as [1 <= 100 * amount]. *)
Definition validate (d : Donation) : option exn :=
  if negb (1 <=? 100 * amount d) then Some (ValidationError "amount")
  else if negb (required_string (transactionId d))
  then Some (ValidationError "transactionId")
  else if negb (required_string (blockchainTxHash d))
  then Some (ValidationError "blockchainTxHash")
  else None.

Definition value_eqb (a b : option value) : bool :=
  match a, b with
  | Some (Str s), Some (Str s') => String.eqb s s'
  | Some (Num n), Some (Num n') => n =? n'
  | _, _ => false
  end.

(** [donation.save()]: validation, then the insertion under the unique
    index on [transactionId]. *)
Definition save (d : Donation) (donations : list Donation)
  : completion (list Donation) :=
  match validate d with
  | Some e => Thrown e
  | None =>
      if existsb (fun d' => value_eqb (transactionId d') (transactionId d)) donations
      then Thrown (DuplicateKeyError "transactionId")
      else Returned (donations ++ [d])%list
  end.

(** What the handler reads of the request: [req.user.id] (set by the
    [auth] middleware) and the three properties of [req.body]. *)
Record Request : Type := mkRequest {
  user_id : string;
  req_charityId : string;
  req_amount : Z;
  req_message : option string
}.

(** The collections and the ledger singleton the handler works on. *)
Record World : Type := mkWorld {
  users : list User;
  donations : list Donation;
  ledger : BlockchainService
}.

(** The body of a response; of the 201 body, the generated [donation.id]
    and [createdAt] are left out. *)
Inductive Body : Type :=
| Message (text : string)
| Created (resp_amount : Z) (resp_message : option string)
    (charity_id charity_displayName : string)
    (resp_transactionId resp_blockchainTxHash : option value)
    (blockIndex : Z) (blockHash : string).

(** [res.status(code).json(body)]. *)
Inductive Response : Type :=
| Json (status : Z) (body : Body).

(** [router.post('/', auth, ...)] (lines 13-74 of the route); [iso] and
    [ms] are the clock readings of [addDonationTransaction], [iso_mine]
    the one of [minePendingTransactions].  The [catch] answers 500 and
    keeps what was mutated before the throw. *)
Definition post (req : Request) (iso : string) (ms : Z) (iso_mine : string)
    (w : World) : Response * World :=
  match findById (users w) (user_id req) with
  | None => (Json 403 (Message "Only donors can make donations"), w)
  | Some donor =>
      if negb (String.eqb (role donor) "donor")
      then (Json 403 (Message "Only donors can make donations"), w)
      else
        match findById (users w) (req_charityId req) with
        | None => (Json 404 (Message "Charity not found"), w)
        | Some charity =>
            if negb (String.eqb (role charity) "charity")
            then (Json 404 (Message "Charity not found"), w)
            else
              let '(blockchainTx, ledger1) :=
                addDonationTransaction (id donor) (id charity) (req_amount req)
                  (default EmptyString (req_message req)) iso ms (ledger w) in
              let donation :=
                mkDonation (id donor) (id charity) (req_amount req) (req_message req)
                  (Js.get (Transaction.props blockchainTx) "transactionId")
                  (Js.get (Transaction.props blockchainTx) "hash") in
              match save donation (donations w) with
              | Thrown _ =>
                  (Json 500 (Message "Server error"),
                   mkWorld (users w) (donations w) ledger1)
              | Returned donations1 =>
                  match minePendingTransactions iso_mine ledger1 with
                  | Thrown _ =>
                      (Json 500 (Message "Server error"),
                       mkWorld (users w) donations1 ledger1)
                  | Returned (block, ledger2) =>
                      (Json 201
                         (Created (req_amount req) (req_message req)
                            (id charity) (displayName charity)
                            (transactionId donation) (blockchainTxHash donation)
                            (Block.index block) (Block.hash block)),
                       mkWorld (users w) donations1 ledger2)
                  end
              end
        end
  end.

End Route.

(** ** Fund allocation: [updateAllocation] and the allocate route *)

Module Allocation.

(** A stored [Donation] document, as far as the allocate route reads it;
    [allocation] is the document's Map from categories to amounts, [None]
    when the path is not set. *)
Record Doc : Type := mkDoc {
  charity : string;
  amount : Z;
  allocation : option (gmap string Z)
}.

(** [v || 0] on what [Map.get] answers ([None] is [undefined]). *)
Definition or_zero (v : option Z) : Z :=
  match v with
  | Some n => if n =? 0 then 0 else n
  | None => 0
  end.

(** [updateAllocation(category, amount)] (lines 60-67 of the model). *)
Definition updateAllocation (category : string) (amount : Z) (this : Doc) : Doc :=
  let allocation :=
    match allocation this with
    | Some m => m
    | None => ∅
    end in
  let currentAmount := or_zero (allocation !! category) in
  mkDoc (charity this) (Allocation.amount this)
        (Some (<[category := currentAmount + amount]> allocation)).

(** What the handler reads of the request: [req.user.id], [req.params.id]
    and the two properties of [req.body] ([amount] a number). *)
Record Request : Type := mkRequest {
  user_id : string;
  id : string;
  category : string;
  req_amount : Z
}.

(** The collections the handler works on; the donations are keyed by their
    [_id]. *)
Record World : Type := mkWorld {
  users : list Route.User;
  donations : gmap string Doc
}.

Inductive Response : Type :=
| Error (status : Z) (message : string)
| Json (donation : Doc).

(** [router.post('/:id/allocate', auth, ...)] (lines 156-187 of the route).
    [saved] tells whether [donation.save()] returned or threw.  [parseFloat]
    of a number reads its decimal string back, so the [NaN] branch is never
    taken (lemma [parseFloat_Number_toString]). *)
Definition allocate (req : Request) (saved : bool) (w : World) : Response * World :=
  match Route.findById (users w) (user_id req) with
  | None => (Error 403 "Only charities can update allocations", w)
  | Some charity =>
      if negb (String.eqb (Route.role charity) "charity")
      then (Error 403 "Only charities can update allocations", w)
      else
        match donations w !! id req with
        | None => (Error 404 "Donation not found", w)
        | Some donation =>
            if negb (String.eqb (Allocation.charity donation) (user_id req))
            then (Error 403 "Not authorized to update this donation", w)
            else
              match parseFloat (Number_toString (req_amount req)) with
              | None => (Error 500 "Server error", w)
              | Some a =>
                  let donation := updateAllocation (category req) a donation in
                  if saved
                  then (Json donation,
                        mkWorld (users w) (<[id req := donation]> (donations w)))
                  else (Error 500 "Server error", w)
              end
        end
  end.

End Allocation.

(** ** The ledger with its arrays held by reference

    [this.chain], [this.pendingTransactions] and the [transactions] property
    of a block hold references to arrays: [createNewBlock] stores the array
    it is given (line 127), [minePendingTransactions] passes it the pending
    array itself (line 103) and then binds [this.pendingTransactions] to a
    new array (line 109), and [getBlockchain] hands out what the two fields
    hold (lines 188-191).  This model keeps the arrays in a store; its
    operations answer [None] where the JavaScript would throw a
    [TypeError]. *)

Module Heap.

Definition loc : Type := nat.

(** A block object; [transactions] is a reference. *)
Record block : Type := mkBlock {
  index : Z;
  timestamp : string;
  transactions : loc;
  previousHash : string;
  hash : string;
  nonce : Z
}.

(** The contents of an array of the store. *)
Inductive array : Type :=
| Transactions (txs : list Transaction.t)
| Blocks (bs : list block).

Abbreviation heap := (gmap loc array).

(** The two fields of the service object. *)
Record service : Type := mkRefs {
  chain : loc;
  pendingTransactions : loc
}.

(** The object [getBlockchain] returns. *)
Record snapshot : Type := mkSnapshot {
  snap_chain : loc;
  snap_pendingTransactions : loc
}.

(** An array literal: a new array at a location not yet in use. *)
Definition alloc (a : array) (h : heap) : loc * heap :=
  let l := fresh (dom h) in (l, <[l := a]> h).

Definition transactions_at (h : heap) (l : loc) : option (list Transaction.t) :=
  match h !! l with
  | Some (Transactions txs) => Some txs
  | _ => None
  end.

Definition blocks_at (h : heap) (l : loc) : option (list block) :=
  match h !! l with
  | Some (Blocks bs) => Some bs
  | _ => None
  end.

(** [array.push(x)] through a reference. *)
Definition push_transaction (l : loc) (tx : Transaction.t) (h : heap) : option heap :=
  txs ← transactions_at h l; Some (<[l := Transactions (txs ++ [tx])]> h).

Definition push_block (l : loc) (b : block) (h : heap) : option heap :=
  bs ← blocks_at h l; Some (<[l := Blocks (bs ++ [b])]> h).

(** Any mutation of the array behind a reference: its contents become
    [a]. *)
Definition write (l : loc) (a : array) (h : heap) : heap := <[l := a]> h.

(** [createGenesisBlock()] (lines 35-46). *)
Definition createGenesisBlock (iso1 iso2 : string) (this : service) (h : heap)
  : option (block * heap) :=
  let '(t, h) := alloc (Transactions []) h in
  let genesisBlock := mkBlock 0 iso1 t "0" (calculateHash 0 "0" [] iso2 0) 0 in
  h ← push_block (chain this) genesisBlock h;
  Some (genesisBlock, h).

(** [new BlockchainService()] (lines 9-30) in the empty store. *)
Definition new_BlockchainService (iso1 iso2 : string) : option (service * heap) :=
  let '(c, h) := alloc (Blocks []) ∅ in
  let '(p, h) := alloc (Transactions []) h in
  let this := mkRefs c p in
  bs ← blocks_at h (chain this);
  if (length bs =? 0)%nat
  then r ← createGenesisBlock iso1 iso2 this h; Some (this, snd r)
  else Some (this, h).

(** [addDonationTransaction(...)] (lines 58-70). *)
Definition addDonationTransaction (donorId charityId : string) (amount : Z)
    (message iso : string) (ms : Z) (this : service) (h : heap)
  : option (Transaction.t * heap) :=
  let transaction :=
    Transaction.mk donorId charityId amount message iso
      (generateTransactionId donorId charityId amount ms) in
  h ← push_transaction (pendingTransactions this) transaction h;
  Some (transaction, h).

(** [createNewBlock(transactions)] (lines 117-134): the block keeps the
    reference it was given. *)
Definition createNewBlock (transactions : loc) (iso : string) (this : service)
    (h : heap) : option block :=
  bs ← blocks_at h (chain this);
  previousBlock ← last bs;
  txs ← transactions_at h transactions;
  let newIndex := index previousBlock + 1 in
  let previousHash := hash previousBlock in
  Some (mkBlock newIndex iso transactions previousHash
          (calculateHash newIndex previousHash txs iso 0) 0).

(** [minePendingTransactions()] (lines 101-112): the field
    [pendingTransactions] is bound to a new array. *)
Definition minePendingTransactions (iso : string) (this : service) (h : heap)
  : option (block * service * heap) :=
  block ← createNewBlock (pendingTransactions this) iso this h;
  h ← push_block (chain this) block h;
  let '(p, h) := alloc (Transactions []) h in
  Some (block, mkRefs (chain this) p, h).

(** [getBlockchain()] (lines 187-192): a new object whose two properties
    hold what the service's fields hold. *)
Definition getBlockchain (this : service) : snapshot :=
  mkSnapshot (chain this) (pendingTransactions this).

(** The block with its transactions read from the store. *)
Definition block_value (h : heap) (b : block) : option Block.t :=
  txs ← transactions_at h (transactions b);
  Some (Block.mk (index b) (timestamp b) txs (previousHash b) (hash b) (nonce b)).

(** The ledger's state, read through its two fields. *)
Definition view (this : service) (h : heap) : option BlockchainService :=
  bs ← blocks_at h (chain this);
  blocks ← mapM (block_value h) bs;
  txs ← transactions_at h (pendingTransactions this);
  Some (mkService blocks txs).

(** One call on the service in the store. *)
Definition call (c : Call) (st : service * heap) : option (service * heap) :=
  match c with
  | AddDonationTransaction donorId charityId amount message iso ms =>
      r ← addDonationTransaction donorId charityId amount message iso ms (fst st) (snd st);
      Some (fst st, snd r)
  | MinePendingTransactions iso =>
      r ← minePendingTransactions iso (fst st) (snd st);
      Some (snd (fst r), snd r)
  end.

Fixpoint run (calls : list Call) (st : service * heap) : option (service * heap) :=
  match calls with
  | [] => Some st
  | c :: rest => st' ← call c st; run rest st'
  end.

(** The references are well placed: the two fields hold distinct arrays of
    the right kinds, and every block's [transactions] is an array of
    transactions other than the pending one. *)
Definition wf (this : service) (h : heap) : Prop :=
  exists bs txs,
    h !! chain this = Some (Blocks bs) /\
    h !! pendingTransactions this = Some (Transactions txs) /\
    Forall (fun b => transactions b <> pendingTransactions this /\
                     is_Some (transactions_at h (transactions b))) bs.

End Heap.

(** * Properties *)

(** ** Numbers and strings *)

Section Primitives.

Lemma toInt32_range (z : Z) : - 2 ^ 31 <= toInt32 z < 2 ^ 31.
Proof.
  unfold toInt32.
  pose proof (Z.mod_pos_bound z (2 ^ 32) ltac:(lia)) as Hm.
  destruct (Z.ltb_spec (z mod 2 ^ 32) (2 ^ 31)); lia.
Qed.

Lemma toInt32_small (z : Z) : - 2 ^ 31 <= z < 2 ^ 31 -> toInt32 z = z.
Proof.
  intros Hz. unfold toInt32.
  destruct (Z.le_gt_cases 0 z) as [Hpos | Hneg].
  - rewrite Z.mod_small by lia.
    destruct (Z.ltb_spec z (2 ^ 31)); lia.
  - replace (z mod 2 ^ 32) with (z + 2 ^ 32).
    + destruct (Z.ltb_spec (z + 2 ^ 32) (2 ^ 31)); lia.
    + apply Z.mod_unique with (q := -1); lia.
Qed.

Lemma toInt32_idemp (z : Z) : toInt32 (toInt32 z) = toInt32 z.
Proof. apply toInt32_small, toInt32_range. Qed.

(** [hash & hash] is [ToInt32(hash)]. *)
Lemma band_diag (z : Z) : band z z = toInt32 z.
Proof. unfold band. apply Z.land_diag. Qed.

(** The accumulator of [sha256] stays a 32-bit integer. *)
Lemma sha256_loop_range (data : string) (hash : Z) :
  - 2 ^ 31 <= hash < 2 ^ 31 -> - 2 ^ 31 <= sha256_loop data hash < 2 ^ 31.
Proof.
  revert hash. induction data as [| c rest IH]; intros hash Hh; simpl.
  - exact Hh.
  - apply IH. rewrite band_diag. apply toInt32_range.
Qed.

(** [parseFloat(String(n))] is [n]: the ledger never produces [NaN] from
    an integer amount. *)
Lemma parseFloat_Number_toString (n : Z) : parseFloat (Number_toString n) = Some n.
Proof.
  unfold parseFloat, Number_toString.
  rewrite DecimalString.NilZero.isi.
  - now rewrite DecimalZ.of_to.
  - destruct n as [| p | p]; simpl; try discriminate.
    intros H. injection H as H. now apply Unsigned.to_uint_nonnil in H.
  - destruct n as [| p | p]; simpl; try discriminate.
    intros H. injection H as H. now apply Unsigned.to_uint_nonnil in H.
Qed.

End Primitives.

(** ** The rolling hash *)

Section RollingHash.

Lemma toInt32_mod (z : Z) : toInt32 z mod 2 ^ 32 = z mod 2 ^ 32.
Proof.
  unfold toInt32.
  destruct (Z.ltb_spec (z mod 2 ^ 32) (2 ^ 31)).
  - apply Z.mod_mod. lia.
  - rewrite <- (Z_mod_plus_full (z mod 2 ^ 32 - 2 ^ 32) 1 (2 ^ 32)).
    replace (z mod 2 ^ 32 - 2 ^ 32 + 1 * 2 ^ 32) with (z mod 2 ^ 32) by lia.
    apply Z.mod_mod. lia.
Qed.

Lemma toInt32_congr (a b : Z) :
  a mod 2 ^ 32 = b mod 2 ^ 32 -> toInt32 a = toInt32 b.
Proof. intros H. unfold toInt32. now rewrite H. Qed.

Lemma step_congr (x y c : Z) :
  x mod 2 ^ 32 = y mod 2 ^ 32 -> (31 * x + c) mod 2 ^ 32 = (31 * y + c) mod 2 ^ 32.
Proof.
  intros H.
  rewrite <- Zplus_mod_idemp_l, <- Zmult_mod_idemp_r, H.
  now rewrite Zmult_mod_idemp_r, Zplus_mod_idemp_l.
Qed.

(** One iteration of the loop is [hash * 31 + char], wrapped to 32 bits. *)
Lemma sha256_step (hash char : Z) :
  band (shl hash 5 - hash + char) (shl hash 5 - hash + char)
  = toInt32 (31 * hash + char).
Proof.
  rewrite band_diag. apply toInt32_congr.
  unfold shl. change (5 mod 32) with 5. rewrite Z.shiftl_mul_pow2 by lia.
  rewrite <- Zplus_mod_idemp_l, <- Zminus_mod_idemp_l, toInt32_mod.
  rewrite <- Zmult_mod_idemp_l, toInt32_mod, Zmult_mod_idemp_l.
  rewrite Zminus_mod_idemp_l, Zplus_mod_idemp_l. f_equal. lia.
Qed.

Lemma sha256_exact_congr (data : string) (x y : Z) :
  x mod 2 ^ 32 = y mod 2 ^ 32 ->
  sha256_exact data x mod 2 ^ 32 = sha256_exact data y mod 2 ^ 32.
Proof.
  revert x y. induction data as [| c rest IH]; intros x y H; [exact H |].
  cbn [sha256_exact]. apply IH, step_congr, H.
Qed.

Lemma sha256_loop_wrapped (data : string) (x : Z) :
  sha256_loop data (toInt32 x) = toInt32 (sha256_exact data x).
Proof.
  revert x. induction data as [| c rest IH]; intros x; [reflexivity |].
  cbn [sha256_loop sha256_exact]. rewrite sha256_step, IH.
  apply toInt32_congr, sha256_exact_congr, step_congr, toInt32_mod.
Qed.

(** From its first character on, the loop is the exact polynomial in 31,
    wrapped once. *)
Lemma sha256_loop_exact (c : ascii) (rest : string) (hash : Z) :
  sha256_loop (String c rest) hash = toInt32 (sha256_exact (String c rest) hash).
Proof.
  cbn [sha256_loop sha256_exact]. rewrite sha256_step. apply sha256_loop_wrapped.
Qed.

Lemma sha256_loop_app (a b : string) (hash : Z) :
  sha256_loop (a ++ b) hash = sha256_loop b (sha256_loop a hash).
Proof.
  revert hash. induction a as [| c a IH]; intros hash; [reflexivity |].
  change (String c a ++ b) with (String c (a ++ b)).
  cbn [sha256_loop]. apply IH.
Qed.

Lemma string_append_assoc (a b c : string) : (a ++ b) ++ c = a ++ (b ++ c).
Proof.
  induction a as [| x a IH]; [reflexivity |].
  change (String x ((a ++ b) ++ c) = String x (a ++ (b ++ c))).
  now rewrite IH.
Qed.

Lemma string_length_app (a b : string) :
  String.length (a ++ b) = (String.length a + String.length b)%nat.
Proof.
  induction a as [| c a IH]; [reflexivity |].
  change (String c a ++ b) with (String c (a ++ b)).
  cbn [String.length Nat.add]. now rewrite IH.
Qed.

(** The digits 81000710 and 10721006 drive the loop to the same accumulator
    from every accumulator: their difference, read in base 31, is
    45 * 2^32. *)
Lemma sha256_loop_collision (hash : Z) :
  sha256_loop "81000710" hash = sha256_loop "10721006" hash.
Proof.
  rewrite !sha256_loop_exact. apply toInt32_congr.
  cbn [sha256_exact]. 
  change (charCode "8") with 56. change (charCode "1") with 49.
  change (charCode "0") with 48. change (charCode "7") with 55.
  change (charCode "2") with 50. change (charCode "6") with 54.
  rewrite <- (Z_mod_plus_full _ (-45)). f_equal. lia.
Qed.

(** Hence the two amounts are interchangeable inside any hashed text. *)
Lemma sha256_collision (before after : string) :
  sha256 (before ++ "81000710" ++ after) = sha256 (before ++ "10721006" ++ after).
Proof.
  unfold sha256. rewrite !string_length_app. cbn [String.length].
  rewrite !sha256_loop_app, sha256_loop_collision. reflexivity.
Qed.

End RollingHash.

(** ** The genesis block *)

(** C7. A freshly constructed ledger has exactly one block; that block has
    [previousHash] equal to the string "0" and an empty list of
    transactions (and nothing is pending). *)
Theorem genesis_invariant (iso1 iso2 : string) :
  let this := new_BlockchainService iso1 iso2 in
  length (chain this) = 1%nat /\
  (exists genesisBlock,
      chain this !! 0%nat = Some genesisBlock /\
      Block.previousHash genesisBlock = "0" /\
      length (Block.transactions genesisBlock) = 0%nat /\
      Block.index genesisBlock = 0) /\
  pendingTransactions this = [].
Proof.
  simpl. split; [reflexivity |]. split; [| reflexivity].
  eexists. split; [reflexivity |]. repeat split.
Qed.

(** ** [addDonationTransaction] *)

(** C3, as the code has it.  The method checks nothing about the amount: for
    every amount, positive or not, it returns the new transaction, appends it
    at the end of the pending buffer and leaves the chain unchanged. *)
Theorem addDonationTransaction_accepts_every_amount
    (donorId charityId : string) (amount : Z) (message iso : string) (ms : Z)
    (this : BlockchainService) :
  exists transaction this',
    addDonationTransaction donorId charityId amount message iso ms this
      = (transaction, this') /\
    Transaction.fromAddress transaction = donorId /\
    Transaction.toAddress transaction = charityId /\
    Transaction.amount transaction = amount /\
    Transaction.message transaction = message /\
    pendingTransactions this' = (pendingTransactions this ++ [transaction])%list /\
    chain this' = chain this.
Proof.
  eexists. eexists. split; [reflexivity |]. repeat split.
Qed.

(** C3, as stated, fails: with amount [-5] (and likewise with 0) the call on
    a fresh ledger returns a transaction and the pending buffer is no longer
    the one before the call. *)
Lemma addDonationTransaction_nonpositive_counterexample :
  let this := new_BlockchainService "2024-01-01T00:00:00.000Z" "2024-01-01T00:00:00.000Z" in
  let r := addDonationTransaction "donorA" "charityB" (-5) EmptyString
             "2024-01-01T00:00:01.000Z" 1704067201000 this in
  -5 <= 0 /\
  Transaction.amount (fst r) = -5 /\
  pendingTransactions (snd r) = [fst r] /\
  pendingTransactions (snd r) <> pendingTransactions this.
Proof.
  vm_compute. repeat split; try discriminate.
Qed.

(** ** Balances *)

Section Doubles.

(** Up to 2^53 in absolute value every integer is a double. *)
Lemma round53_small (z : Z) : Z.abs z < 2 ^ 53 -> round53 z = z.
Proof.
  intros Hz. unfold round53. cbv zeta.
  assert (Z.log2 (Z.abs z) + 1 - 53 <= 0) as Hs.
  { destruct (Z.eq_dec (Z.abs z) 0) as [-> | Hne]; [cbn; lia |].
    assert (Z.log2 (Z.abs z) < 53); [| lia].
    apply Z.log2_lt_pow2; lia. }
  apply Z.leb_le in Hs. now rewrite Hs.
Qed.

Lemma to_double_exact (z : Z) : Z.abs z <= 2 ^ 53 -> to_double z = Finite z.
Proof.
  intros Hz. destruct (Z.eq_dec (Z.abs z) (2 ^ 53)) as [Heq | Hne].
  - assert (z = 2 ^ 53 \/ z = - 2 ^ 53) as [-> | ->] by lia; vm_compute; reflexivity.
  - unfold to_double. cbv zeta. rewrite round53_small by lia.
    assert (2 ^ 53 < 2 ^ 1024) by (apply Z.pow_lt_mono_r; lia).
    destruct (Z.leb_spec (2 ^ 1024) (Z.abs z)); [lia | reflexivity].
Qed.

Lemma number_add_exact (a b : Z) :
  Z.abs (a + b) <= 2 ^ 53 -> number_add (Finite a) (Finite b) = Finite (a + b).
Proof. intros H. cbn [number_add]. now apply to_double_exact. Qed.

Lemma number_sub_exact (a b : Z) :
  Z.abs (a - b) <= 2 ^ 53 -> number_sub (Finite a) (Finite b) = Finite (a - b).
Proof.
  intros H. unfold number_sub. cbn [number_neg number_add].
  replace (a + - b) with (a - b) by lia. now apply to_double_exact.
Qed.

(** [parseFloat(amount)] gives the amount back when it is a double. *)
Lemma parseFloat_amount (a : Z) :
  Z.abs a <= 2 ^ 53 -> double_of (parseFloat (Number_toString a)) = Finite a.
Proof.
  intros H. rewrite parseFloat_Number_toString. cbn [double_of].
  now apply to_double_exact.
Qed.

End Doubles.

Section Balance.

Variable X : string.

Lemma volume_nonneg (txs : list Transaction.t) : 0 <= volume txs.
Proof.
  induction txs as [| tx txs IH]; [cbn; lia |].
  cbn [volume foldr]. fold (volume txs). lia.
Qed.

Lemma volume_app (txs1 txs2 : list Transaction.t) :
  volume (txs1 ++ txs2) = volume txs1 + volume txs2.
Proof.
  induction txs1 as [| tx txs1 IH]; [reflexivity |].
  cbn [app volume foldr]. fold (volume (txs1 ++ txs2)). fold (volume txs1). lia.
Qed.

(** One step stays exact while the balance and the amount together stay
    within 2^53. *)
Lemma balance_step_exact (b : Z) (tx : Transaction.t) :
  Z.abs b + Z.abs (Transaction.amount tx) <= 2 ^ 53 ->
  balance_step X (Finite b) tx = Finite (b - debit X tx + credit X tx).
Proof.
  intros H. unfold balance_step, debit, credit.
  rewrite parseFloat_amount by lia.
  destruct (String.eqb (Transaction.fromAddress tx) X),
           (String.eqb (Transaction.toAddress tx) X).
  - rewrite number_sub_exact, number_add_exact by lia. f_equal.
  - rewrite number_sub_exact by lia. f_equal. lia.
  - rewrite number_add_exact by lia. f_equal. lia.
  - f_equal. lia.
Qed.

(** The inner loop over one array of transactions. *)
Lemma balance_fold_exact (txs : list Transaction.t) (b : Z) :
  Z.abs b + volume txs <= 2 ^ 53 ->
  fold_left (balance_step X) txs (Finite b) = Finite (b + net X txs).
Proof.
  revert b. induction txs as [| tx txs IH]; intros b Hb.
  - cbn. f_equal. lia.
  - cbn [volume foldr] in Hb. fold (volume txs) in Hb.
    pose proof (volume_nonneg txs) as Hv.
    cbn [fold_left]. rewrite balance_step_exact by lia.
    rewrite IH.
    + cbn [net foldr]. fold (net X txs). f_equal. lia.
    + unfold debit, credit.
      destruct (String.eqb (Transaction.fromAddress tx) X),
               (String.eqb (Transaction.toAddress tx) X); lia.
Qed.

(** The two nested loops scan the transactions of the chain in order. *)
Lemma balance_blocks (blocks : list Block.t) (balance : number) :
  fold_left (fun balance block =>
               fold_left (balance_step X) (Block.transactions block) balance)
            blocks balance
  = fold_left (balance_step X) (concat (map Block.transactions blocks)) balance.
Proof.
  revert balance. induction blocks as [| b blocks IH]; intros balance.
  - reflexivity.
  - cbn [fold_left map concat]. rewrite fold_left_app. apply IH.
Qed.

(** While the amounts of the chain add up, in absolute value, to at most
    2^53, the balance is the exact net amount. *)
Lemma balance_of_chain (this : BlockchainService) :
  volume (chain_transactions this) <= 2 ^ 53 ->
  getBalanceOfAddress X this = Finite (net X (chain_transactions this)).
Proof.
  intros Hv. unfold getBalanceOfAddress.
  rewrite balance_blocks. fold (chain_transactions this).
  rewrite balance_fold_exact by (cbn; lia). f_equal.
Qed.

Lemma sum_filter_to (tx : Transaction.t) (txs : list Transaction.t) :
  sum_amounts (filter (fun tx => Transaction.toAddress tx = X) (tx :: txs))
  = credit X tx + sum_amounts (filter (fun tx => Transaction.toAddress tx = X) txs).
Proof.
  rewrite filter_cons. unfold credit.
  destruct (String.eqb_spec (Transaction.toAddress tx) X) as [He | Hne];
    destruct (decide (Transaction.toAddress tx = X)); try contradiction; reflexivity.
Qed.

Lemma sum_filter_from (tx : Transaction.t) (txs : list Transaction.t) :
  sum_amounts (filter (fun tx => Transaction.fromAddress tx = X) (tx :: txs))
  = debit X tx + sum_amounts (filter (fun tx => Transaction.fromAddress tx = X) txs).
Proof.
  rewrite filter_cons. unfold debit.
  destruct (String.eqb_spec (Transaction.fromAddress tx) X) as [He | Hne];
    destruct (decide (Transaction.fromAddress tx = X)); try contradiction; reflexivity.
Qed.

(** The net amount is the sum received minus the sum sent. *)
Lemma net_received_sent (this : BlockchainService) :
  net X (chain_transactions this) = received X this - sent X this.
Proof.
  unfold received, sent.
  induction (chain_transactions this) as [| tx txs IH]; [reflexivity |].
  rewrite sum_filter_to, sum_filter_from. cbn [net foldr]. fold (net X txs). lia.
Qed.

End Balance.

(** C6, as the code has it.  [getBalanceOfAddress(X)] adds and subtracts the
    amounts of the chain in chain order, in double arithmetic.  For every
    identity [X] and every state of the ledger whose chain transactions have
    integer amounts adding up, in absolute value, to at most 2^53, the result
    is the sum of the amounts whose [toAddress] is [X] minus the sum of the
    amounts whose [fromAddress] is [X], exactly. *)
Theorem getBalanceOfAddress_exact_sums (X : string) (this : BlockchainService) :
  volume (chain_transactions this) <= 2 ^ 53 ->
  getBalanceOfAddress X this = Finite (received X this - sent X this).
Proof.
  intros Hv. rewrite balance_of_chain by exact Hv. f_equal.
  apply net_received_sent.
Qed.

(** Two donations to one charity, one of which it passes on. *)
Lemma getBalanceOfAddress_exact_sums_witness :
  let iso0 := "2024-01-01T00:00:00.000Z" in
  let tx1 := Transaction.mk "donorA" "charityB" 50 EmptyString iso0 "1" in
  let tx2 := Transaction.mk "charityB" "partnerD" 20 EmptyString iso0 "2" in
  let tx3 := Transaction.mk "donorC" "charityB" 70 EmptyString iso0 "3" in
  let this := mkService [Block.mk 0 iso0 [] "0" "0" 0; Block.mk 1 iso0 [tx1; tx2] "0" "1" 0;
                         Block.mk 2 iso0 [tx3] "1" "2" 0] [] in
  getBalanceOfAddress "charityB" this = Finite (received "charityB" this - sent "charityB" this).
Proof.
  intros iso0 tx1 tx2 tx3 this.
  apply (getBalanceOfAddress_exact_sums "charityB" this).
  apply Z.leb_le. vm_compute. reflexivity.
Defined.

(** C6, as stated, fails.  The charity receives 9007199254740992 (2^53),
    passes 2 on and receives 3, each in a mined block.  The code answers
    9007199254740992: the last addition is rounded.  The sum received minus
    the sum sent is 9007199254740993; and the two sums taken in double
    arithmetic give 9007199254740994. *)
Lemma getBalanceOfAddress_counterexample :
  let iso0 := "2024-01-01T00:00:00.000Z" in
  let calls := [AddDonationTransaction "donorA" "charityB" 9007199254740992 EmptyString
                  "2024-01-01T00:00:01.000Z" 1704067201000;
                MinePendingTransactions "2024-01-01T00:00:02.000Z";
                AddDonationTransaction "charityB" "partnerD" 2 EmptyString
                  "2024-01-01T00:00:03.000Z" 1704067203000;
                MinePendingTransactions "2024-01-01T00:00:04.000Z";
                AddDonationTransaction "donorC" "charityB" 3 EmptyString
                  "2024-01-01T00:00:05.000Z" 1704067205000;
                MinePendingTransactions "2024-01-01T00:00:06.000Z"] in
  exists this,
    run calls (new_BlockchainService iso0 iso0) = Returned this /\
    received "charityB" this = 9007199254740992 + 3 /\
    sent "charityB" this = 2 /\
    getBalanceOfAddress "charityB" this = Finite 9007199254740992 /\
    getBalanceOfAddress "charityB" this
    <> Finite (received "charityB" this - sent "charityB" this) /\
    number_sub (number_add (Finite 9007199254740992) (Finite 3)) (Finite 2)
    = Finite 9007199254740994.
Proof.
  intros iso0 calls. eexists.
  split; [vm_compute; reflexivity |].
  split; [vm_compute; reflexivity |].
  split; [vm_compute; reflexivity |].
  split; [vm_compute; reflexivity |].
  split; [vm_compute; discriminate |].
  vm_compute. reflexivity.
Qed.

(** ** The validity check *)

Section Validity.

Lemma block_ok_true (previousBlock currentBlock : Block.t) :
  block_ok previousBlock currentBlock = true <->
  hash_matches currentBlock /\
  Block.previousHash currentBlock = Block.hash previousBlock.
Proof.
  unfold block_ok, hash_matches.
  rewrite andb_true_iff, !String.eqb_eq. reflexivity.
Qed.

(** The loop, started just after [previousBlock], checks the rest of the
    chain link by link. *)
Lemma isChainValid_loop_links (rest pre : list Block.t) (previousBlock : Block.t) :
  isChainValid_loop (pre ++ previousBlock :: rest) (S (length pre)) (length rest)
  = links_ok previousBlock rest.
Proof.
  revert pre previousBlock.
  induction rest as [| currentBlock rest IH]; intros pre previousBlock.
  - reflexivity.
  - cbn [length isChainValid_loop links_ok].
    replace (S (length pre) - 1)%nat with (length pre) by lia.
    rewrite (lookup_app_r pre) by lia.
    replace (S (length pre) - length pre)%nat with 1%nat by lia.
    rewrite (lookup_app_r pre) by lia.
    replace (length pre - length pre)%nat with 0%nat by lia.
    cbn [lookup list_lookup].
    specialize (IH (pre ++ [previousBlock])%list currentBlock).
    rewrite <- app_assoc, length_app in IH. cbn [app length] in IH.
    replace (length pre + 1)%nat with (S (length pre)) in IH by lia.
    rewrite IH. unfold block_ok.
    destruct (String.eqb (Block.hash currentBlock) _); [| reflexivity].
    destruct (String.eqb (Block.previousHash currentBlock) _); reflexivity.
Qed.

Lemma isChainValid_cons (genesisBlock : Block.t) (rest : list Block.t)
    (pending : list Transaction.t) :
  isChainValid (mkService (genesisBlock :: rest) pending) = links_ok genesisBlock rest.
Proof.
  unfold isChainValid. cbn [chain length].
  replace (S (length rest) - 1)%nat with (length rest) by lia.
  apply (isChainValid_loop_links rest []).
Qed.

Lemma isChainValid_nil (pending : list Transaction.t) :
  isChainValid (mkService [] pending) = true.
Proof. reflexivity. Qed.

(** Only the stored [hash] of the block before matters to the checks. *)
Lemma links_ok_hash (b b' : Block.t) (rest : list Block.t) :
  Block.hash b' = Block.hash b -> links_ok b' rest = links_ok b rest.
Proof.
  intros Hh. destruct rest as [| c rest]; [reflexivity |].
  cbn [links_ok]. unfold block_ok. now rewrite Hh.
Qed.

Lemma links_ok_snoc (previousBlock : Block.t) (rest : list Block.t) (b : Block.t) :
  links_ok previousBlock (rest ++ [b])
  = links_ok previousBlock rest && block_ok (default previousBlock (last rest)) b.
Proof.
  revert previousBlock. induction rest as [| c rest IH]; intros previousBlock.
  - cbn. now rewrite andb_true_r.
  - cbn [app links_ok]. rewrite IH, andb_assoc. f_equal.
    rewrite last_cons. destruct (last rest); reflexivity.
Qed.

(** The loop's verdict is the specification's reading of it. *)
Lemma links_ok_passes (previousBlock : Block.t) (rest : list Block.t) :
  links_ok previousBlock rest = true <-> passes_checks (previousBlock :: rest).
Proof.
  revert previousBlock. induction rest as [| c rest IH]; intros previousBlock.
  - split; [| reflexivity].
    intros _ i cur prev Hi Hcur _. destruct i as [| i]; [lia |]. discriminate.
  - cbn [links_ok]. rewrite andb_true_iff, block_ok_true, IH. split.
    + intros [Hok Hrest] i cur prev Hi Hcur Hprev.
      destruct i as [| [| i]]; [lia | |].
      * cbn in Hcur, Hprev. congruence.
      * apply (Hrest (S i)); [lia | exact Hcur |].
        cbn [Nat.sub] in *. rewrite Nat.sub_0_r in *. exact Hprev.
    + intros H. split.
      * apply (H 1%nat); [lia | reflexivity | reflexivity].
      * intros i cur prev Hi Hcur Hprev.
        apply (H (S i)); [lia | exact Hcur |].
        destruct i as [| i]; [lia |].
        cbn [Nat.sub] in *. rewrite Nat.sub_0_r in *. exact Hprev.
Qed.

Lemma isChainValid_passes (this : BlockchainService) :
  isChainValid this = true <-> passes_checks (chain this).
Proof.
  destruct this as [[| g rest] pending].
  - split; [| reflexivity]. intros _ i cur prev _ Hcur. discriminate.
  - rewrite isChainValid_cons. apply links_ok_passes.
Qed.

End Validity.

(** ** Mining *)

Section Mining.

Lemma getLatestBlock_cons (genesisBlock : Block.t) (rest : list Block.t)
    (pending : list Transaction.t) :
  getLatestBlock (mkService (genesisBlock :: rest) pending)
  = Some (default genesisBlock (last rest)).
Proof.
  unfold getLatestBlock. cbn [chain]. rewrite last_cons.
  destruct (last rest); reflexivity.
Qed.

(** On a chain with a first block, mining returns: the block it builds and
    the state it leaves. *)
Lemma minePendingTransactions_cons (iso : string) (genesisBlock : Block.t)
    (rest : list Block.t) (pending : list Transaction.t) :
  let lastBlock := default genesisBlock (last rest) in
  let block :=
    Block.mk (Block.index lastBlock + 1) iso pending (Block.hash lastBlock)
      (calculateHash (Block.index lastBlock + 1) (Block.hash lastBlock) pending iso 0)
      0 in
  minePendingTransactions iso (mkService (genesisBlock :: rest) pending)
  = Returned (block, mkService ((genesisBlock :: rest) ++ [block]) []).
Proof.
  cbv zeta. unfold minePendingTransactions, createNewBlock.
  rewrite getLatestBlock_cons. reflexivity.
Qed.

Lemma new_BlockchainService_inv (iso1 iso2 : string) :
  chain_inv (new_BlockchainService iso1 iso2).
Proof. eexists. exists []. split; reflexivity. Qed.

Lemma call_inv (c : Call) (this : BlockchainService) :
  chain_inv this -> exists this', call c this = Returned this' /\ chain_inv this'.
Proof.
  intros (g & rest & Hc & Hok). destruct this as [blocks pending].
  cbn [chain] in Hc. subst blocks.
  destruct c as [donorId charityId amount message iso ms | iso].
  - eexists. split; [reflexivity |]. exists g, rest. split; [reflexivity | exact Hok].
  - cbn [call]. rewrite minePendingTransactions_cons.
    eexists. split; [reflexivity |].
    exists g. eexists. split; [reflexivity |].
    rewrite links_ok_snoc, Hok. cbn [andb]. unfold block_ok. cbn.
    now rewrite !String.eqb_refl.
Qed.

Lemma run_inv (calls : list Call) (this : BlockchainService) :
  chain_inv this -> exists this', run calls this = Returned this' /\ chain_inv this'.
Proof.
  revert this. induction calls as [| c calls IH]; intros this Hinv.
  - exists this. split; [reflexivity | exact Hinv].
  - destruct (call_inv c this Hinv) as (this1 & Hcall & Hinv1).
    destruct (IH this1 Hinv1) as (this' & Hrun & Hinv').
    exists this'. split; [| exact Hinv']. cbn [run]. now rewrite Hcall.
Qed.

Lemma chain_inv_valid (this : BlockchainService) :
  chain_inv this -> isChainValid this = true.
Proof.
  intros (g & rest & Hc & Hok). destruct this as [blocks pending].
  cbn [chain] in Hc. subst blocks. now rewrite isChainValid_cons.
Qed.

Lemma run_returned_inv (iso1 iso2 : string) (calls : list Call)
    (this : BlockchainService) :
  run calls (new_BlockchainService iso1 iso2) = Returned this -> chain_inv this.
Proof.
  intros Hrun.
  destruct (run_inv calls _ (new_BlockchainService_inv iso1 iso2))
    as (this' & Hrun' & Hinv).
  congruence.
Qed.

End Mining.

(** C1. Every sequence of [addDonationTransaction] and
    [minePendingTransactions] calls on a freshly constructed ledger runs to
    its end without a throw, and [isChainValid()] is true in the state it
    reaches; taking the sequences that end in a mine, [isChainValid()] is true
    after each mine. *)
Theorem isChainValid_after_calls (iso1 iso2 : string) (calls : list Call) :
  exists this,
    run calls (new_BlockchainService iso1 iso2) = Returned this /\
    isChainValid this = true.
Proof.
  destruct (run_inv calls _ (new_BlockchainService_inv iso1 iso2))
    as (this & Hrun & Hinv).
  exists this. split; [exact Hrun | now apply chain_inv_valid].
Qed.

(** C4. In every state the ledger reaches, [minePendingTransactions()]
    returns (no throw, whatever the pending buffer holds, the empty buffer
    included); the block it returns has [index = lastBlock.index + 1],
    [previousHash = lastBlock.hash], the pending buffer of the time of the
    call as its transactions and the hash of its own fields as [hash]; it is
    the new last element of the chain, the chain is otherwise as before, and
    the pending buffer is empty afterwards. *)
Theorem minePendingTransactions_spec (iso1 iso2 : string) (calls : list Call)
    (this : BlockchainService) (iso : string) :
  run calls (new_BlockchainService iso1 iso2) = Returned this ->
  exists lastBlock block this',
    getLatestBlock this = Some lastBlock /\
    minePendingTransactions iso this = Returned (block, this') /\
    Block.index block = Block.index lastBlock + 1 /\
    Block.previousHash block = Block.hash lastBlock /\
    Block.transactions block = pendingTransactions this /\
    (pendingTransactions this = [] -> length (Block.transactions block) = 0%nat) /\
    hash_matches block /\
    chain this' = (chain this ++ [block])%list /\
    getLatestBlock this' = Some block /\
    pendingTransactions this' = [].
Proof.
  intros Hrun. apply run_returned_inv in Hrun as (g & rest & Hc & _).
  destruct this as [blocks pending]. cbn [chain] in Hc. subst blocks.
  eexists. eexists. eexists.
  split; [apply getLatestBlock_cons |].
  split; [apply minePendingTransactions_cons |].
  cbn [Block.index Block.previousHash Block.transactions pendingTransactions chain].
  repeat split.
  - now intros ->.
  - unfold getLatestBlock. cbn [chain]. apply (last_snoc _ (g :: rest)).
Qed.

(** A state reached by one donation and one mine, mined once more with an
    empty pending buffer. *)
Lemma minePendingTransactions_spec_witness :
  let iso0 := "2024-01-01T00:00:00.000Z" in
  let calls := [AddDonationTransaction "donorA" "charityB" 50 EmptyString
                  "2024-01-01T00:00:01.000Z" 1704067201000;
                MinePendingTransactions "2024-01-01T00:00:02.000Z"] in
  exists this,
    run calls (new_BlockchainService iso0 iso0) = Returned this /\
    exists lastBlock block this',
      getLatestBlock this = Some lastBlock /\
      minePendingTransactions "2024-01-01T00:00:03.000Z" this = Returned (block, this') /\
      Block.index block = Block.index lastBlock + 1 /\
      Block.previousHash block = Block.hash lastBlock /\
      Block.transactions block = pendingTransactions this /\
      (pendingTransactions this = [] -> length (Block.transactions block) = 0%nat) /\
      hash_matches block /\
      chain this' = (chain this ++ [block])%list /\
      getLatestBlock this' = Some block /\
      pendingTransactions this' = [].
Proof.
  intros iso0 calls. eexists. split; [vm_compute; reflexivity |].
  apply (minePendingTransactions_spec iso0 iso0 calls _ "2024-01-01T00:00:03.000Z").
  vm_compute. reflexivity.
Defined.

(** C10. [isChainValid()] never recomputes the hash of the genesis block: on
    every chain whose blocks at the indices [i >= 1] pass the hash check and
    the linkage check, replacing the transactions and the timestamp of the
    genesis block (its stored [hash] kept) leaves [isChainValid()] true; and
    every chain of length 0 or 1 is valid. *)
Theorem isChainValid_skips_genesis :
  (forall (this : BlockchainService) (txs : list Transaction.t) (ts : string),
      passes_checks (chain this) ->
      isChainValid (tamper_genesis txs ts this) = true) /\
  (forall this : BlockchainService,
      (length (chain this) <= 1)%nat -> isChainValid this = true).
Proof.
  split.
  - intros [[| g rest] pending] txs ts Hpass; [reflexivity |].
    unfold tamper_genesis. cbn [chain alter list_alter pendingTransactions].
    rewrite isChainValid_cons.
    rewrite (links_ok_hash g) by reflexivity.
    now apply links_ok_passes.
  - intros [[| g [| b rest]] pending] Hlen; [reflexivity | reflexivity |].
    cbn in Hlen. lia.
Qed.

(** The chain of one donation and one mine, its genesis block given a
    transaction and another timestamp; and the empty chain. *)
Lemma isChainValid_skips_genesis_witness :
  let iso0 := "2024-01-01T00:00:00.000Z" in
  let tx := Transaction.mk "donorA" "charityB" 1000000 EmptyString iso0 "0" in
  let this :=
    mkService
      [ Block.mk 0 iso0 [] "0" "4f0998a" 0;
        Block.mk 1 "2024-01-01T00:00:02.000Z" [] "4f0998a"
          (calculateHash 1 "4f0998a" [] "2024-01-01T00:00:02.000Z" 0) 0 ] [] in
  isChainValid (tamper_genesis [tx] "1999-12-31T23:59:59.000Z" this) = true /\
  isChainValid (mkService [] []) = true.
Proof.
  intros iso0 tx this. split.
  - apply (proj1 isChainValid_skips_genesis this).
    apply isChainValid_passes. vm_compute. reflexivity.
  - apply (proj2 isChainValid_skips_genesis (mkService [] [])).
    cbn. lia.
Defined.

(** ** Corruption of a mined block *)

Section Tamper.

Variable f : Block.t -> Block.t.
Hypothesis f_hash : forall b, Block.hash (f b) = Block.hash b.
Hypothesis f_previousHash : forall b, Block.previousHash (f b) = Block.previousHash b.

(** On a chain that passes the checks, altering block [i] without touching
    its [hash] and [previousHash] leaves one check open: the hash of the
    altered block. *)
Lemma passes_checks_alter (blocks : list Block.t) (i : nat) (b : Block.t) :
  passes_checks blocks -> (1 <= i)%nat -> blocks !! i = Some b ->
  passes_checks (alter f i blocks) <-> hash_matches (f b).
Proof using f_hash f_previousHash.
  intros Hpass Hi Hb. split.
  - intros Halt.
    destruct (lookup_lt_is_Some_2 blocks (i - 1)%nat) as [prev Hprev].
    { apply lookup_lt_Some in Hb. lia. }
    apply (Halt i (f b) prev Hi).
    + now rewrite list_lookup_alter_eq, Hb.
    + rewrite list_lookup_alter_ne by lia. exact Hprev.
  - intros Hfb k cur prev Hk Hcur Hprev.
    destruct (decide (k = i)) as [-> | Hne].
    + rewrite list_lookup_alter_eq, Hb in Hcur. injection Hcur as <-.
      rewrite list_lookup_alter_ne in Hprev by lia.
      split; [exact Hfb |]. rewrite f_previousHash.
      now apply (Hpass i b prev).
    + rewrite list_lookup_alter_ne in Hcur by lia.
      destruct (decide (k - 1 = i)%nat) as [Hk1 | Hk1].
      * rewrite Hk1, list_lookup_alter_eq, Hb in Hprev. injection Hprev as <-.
        rewrite f_hash. apply (Hpass k cur b Hk Hcur). now rewrite Hk1.
      * rewrite list_lookup_alter_ne in Hprev by lia.
        now apply (Hpass k cur prev).
Qed.

End Tamper.

(** On a chain that passes the checks, a changed amount in block [i >= 1]
    keeps the chain valid exactly when the block's recomputed hash is still
    the stored one. *)
Lemma tamper_amount_valid_iff (this : BlockchainService) (i j : nat) (b : Block.t)
    (tx : Transaction.t) (a : Z) :
  passes_checks (chain this) ->
  (1 <= i)%nat ->
  chain this !! i = Some b ->
  Block.transactions b !! j = Some tx ->
  isChainValid (tamper_amount i j a this) = true <->
  calculateHash (Block.index b) (Block.previousHash b)
    (<[j := Transaction.set_amount a tx]> (Block.transactions b))
    (Block.timestamp b) (Block.nonce b) = Block.hash b.
Proof.
  intros Hpass Hi Hb Htx.
  rewrite isChainValid_passes.
  unfold tamper_amount. cbn [chain].
  rewrite (passes_checks_alter
             (fun b => Block.set_transactions
                         (alter (Transaction.set_amount a) j (Block.transactions b)) b)
             (fun _ => eq_refl) (fun _ => eq_refl) _ i b Hpass Hi Hb).
  unfold hash_matches, Block.set_transactions.
  cbn [Block.hash Block.index Block.previousHash Block.transactions
       Block.timestamp Block.nonce].
  assert (alter (Transaction.set_amount a) j (Block.transactions b)
          = <[j := Transaction.set_amount a tx]> (Block.transactions b)) as ->.
  { apply list_eq. intros k. destruct (decide (k = j)) as [-> | Hne].
    - rewrite list_lookup_alter_eq, Htx.
      rewrite list_lookup_insert_eq; [reflexivity |].
      now apply lookup_lt_Some in Htx.
    - rewrite list_lookup_alter_ne, list_lookup_insert_ne by congruence.
      reflexivity. }
  split; congruence.
Qed.




(** ** The amount inside the hashed text *)

Section AmountInHash.

Lemma string_append_nil_r (s : string) : s ++ EmptyString = s.
Proof.
  induction s as [| c s IH]; [reflexivity |].
  change (String c s ++ EmptyString) with (String c (s ++ EmptyString)).
  now rewrite IH.
Qed.

(** An element of a joined list sits between two texts that do not depend on
    it. *)
Lemma JSON_join_middle (l1 l2 : list string) :
  exists before after,
    forall x, JSON_join (l1 ++ x :: l2) = before ++ x ++ after.
Proof.
  induction l1 as [| p l1 IH].
  - destruct l2 as [| y l2].
    + exists EmptyString, EmptyString. intros x. cbn [app JSON_join].
      now rewrite string_append_nil_r.
    + exists EmptyString. eexists. intros x. cbn [app JSON_join]. reflexivity.
  - destruct IH as (before & after & IH).
    exists (p ++ "," ++ before), after. intros x.
    assert (JSON_join ((p :: l1) ++ x :: l2) = p ++ "," ++ JSON_join (l1 ++ x :: l2)) as ->.
    { cbn [app JSON_join]. destruct l1; reflexivity. }
    rewrite IH. now rewrite !string_append_assoc.
Qed.


(** The amount of a transaction sits between two texts of its serialisation
    that do not depend on it. *)
Lemma JSON_object_amount (tx : Transaction.t) :
  exists before after,
    forall a, JSON_object (Transaction.props (Transaction.set_amount a tx))
              = before ++ Number_toString a ++ after.
Proof.
  exists ("{" ++ JSON_quote "fromAddress" ++ ":" ++ JSON_quote (Transaction.fromAddress tx)
          ++ "," ++ JSON_quote "toAddress" ++ ":" ++ JSON_quote (Transaction.toAddress tx)
          ++ "," ++ JSON_quote "amount" ++ ":").
  exists ("," ++ JSON_quote "message" ++ ":" ++ JSON_quote (Transaction.message tx)
          ++ "," ++ JSON_quote "timestamp" ++ ":" ++ JSON_quote (Transaction.timestamp tx)
          ++ "," ++ JSON_quote "transactionId" ++ ":"
          ++ JSON_quote (Transaction.transactionId tx) ++ "}").
  intros a.
  unfold JSON_object, Transaction.props, Transaction.set_amount.
  cbn [map JSON_join fst snd JSON_value Transaction.fromAddress Transaction.toAddress
       Transaction.amount Transaction.message Transaction.timestamp
       Transaction.transactionId].
  rewrite !string_append_assoc.
  reflexivity.
Qed.

(** So does it in the text [calculateHash] hashes. *)
Lemma calculateHash_amount (index : Z) (previousHash : string)
    (txs : list Transaction.t) (j : nat) (tx : Transaction.t)
    (timestamp : string) (nonce : Z) :
  txs !! j = Some tx ->
  exists before after,
    forall a,
      calculateHash index previousHash (<[j := Transaction.set_amount a tx]> txs)
        timestamp nonce
      = sha256 (before ++ Number_toString a ++ after).
Proof.
  intros Htx.
  destruct (JSON_object_amount tx) as (b1 & a1 & Hobj).
  destruct (JSON_join_middle
              (map (fun tx => JSON_object (Transaction.props tx)) (take j txs))
              (map (fun tx => JSON_object (Transaction.props tx)) (drop (S j) txs)))
    as (b2 & a2 & Hjoin).
  exists (Number_toString index ++ previousHash ++ "[" ++ b2 ++ b1),
         (a1 ++ a2 ++ "]" ++ timestamp ++ Number_toString nonce).
  intros a. unfold calculateHash, JSON_stringify. f_equal.
  rewrite insert_take_drop by (now apply lookup_lt_Some in Htx).
  rewrite map_app. cbn [map]. rewrite Hjoin, Hobj.
  now rewrite !string_append_assoc.
Qed.

End AmountInHash.

(** In whatever mined block of whatever chain built by mining a transaction
    of amount 81000710 sits, changing that amount to 10721006 leaves
    [isChainValid()] true. *)
Lemma tamper_amount_81000710_undetected (iso1 iso2 : string) (calls : list Call)
    (this : BlockchainService) (i j : nat) (b : Block.t) (tx : Transaction.t) :
  run calls (new_BlockchainService iso1 iso2) = Returned this ->
  chain this !! i = Some b ->
  Block.transactions b !! j = Some tx ->
  Transaction.amount tx = 81000710 ->
  isChainValid (tamper_amount i j 10721006 this) = true.
Proof.
  intros Hrun Hb Htx Ha.
  destruct i as [| i].
  - (* the genesis block is not checked at all *)
    apply run_returned_inv in Hrun as (g & rest & Hc & Hok).
    destruct this as [blocks pending]. cbn [chain] in Hc, Hb. subst blocks.
    unfold tamper_amount. cbn [chain alter list_alter pendingTransactions].
    rewrite isChainValid_cons. now rewrite (links_ok_hash g) by reflexivity.
  - pose proof (run_returned_inv _ _ _ _ Hrun) as Hinv.
    apply chain_inv_valid, isChainValid_passes in Hinv.
    destruct (lookup_lt_is_Some_2 (chain this) (S i - 1)%nat) as [prev Hprev].
    { apply lookup_lt_Some in Hb. lia. }
    destruct (Hinv (S i) b prev ltac:(lia) Hb Hprev) as [Hhash _].
    apply (tamper_amount_valid_iff this (S i) j b tx 10721006 Hinv ltac:(lia) Hb Htx).
    rewrite Hhash.
    destruct (calculateHash_amount (Block.index b) (Block.previousHash b)
                (Block.transactions b) j tx (Block.timestamp b) (Block.nonce b) Htx)
      as (before & after & Hcalc).
    rewrite Hcalc.
    replace (Block.transactions b)
      with (<[j := Transaction.set_amount 81000710 tx]> (Block.transactions b)).
    + rewrite Hcalc. symmetry. apply sha256_collision.
    + apply list_insert_id. rewrite Htx. f_equal.
      destruct tx. cbn in Ha. subst. reflexivity.
Qed.

(** ** Transaction ids *)

(** [sha256] answers the hexadecimal form of one of the numbers 0 .. 2^31. *)
Lemma sha256_range (data : string) :
  exists n, 0 <= n <= 2 ^ 31 /\ sha256 data = Number_toString16 n.
Proof.
  unfold sha256. destruct (String.length data =? 0)%nat.
  - exists 0. split; [lia | reflexivity].
  - exists (Z.abs (sha256_loop data 0)). split; [| reflexivity].
    pose proof (sha256_loop_range data 0 ltac:(lia)). lia.
Qed.

(** X20.  The id does not tell where [from] ends and [to] begins. *)
Lemma generateTransactionId_concatenation (a b c : string) (amount ms : Z) :
  generateTransactionId (a ++ b) c amount ms = generateTransactionId a (b ++ c) amount ms.
Proof.
  unfold generateTransactionId. now rewrite !string_append_assoc.
Qed.

(** Whatever the donor, the charity and the amount, the ids created at the
    clock readings 1704010721006 and 1704081000710 are equal. *)
Lemma generateTransactionId_collision (from to : string) (amount : Z) :
  generateTransactionId from to amount 1704081000710
  = generateTransactionId from to amount 1704010721006.
Proof.
  unfold generateTransactionId.
  change (Number_toString 1704081000710) with ("17040" ++ "81000710" ++ EmptyString).
  change (Number_toString 1704010721006) with ("17040" ++ "10721006" ++ EmptyString).
  rewrite <- !string_append_assoc.
  rewrite (string_append_assoc _ "81000710"), (string_append_assoc _ "10721006").
  apply sha256_collision.
Qed.

(** C8 at two calls the ledger can receive.  [generateTransactionId] is
    documented as generating a unique id: two calls with the same donor,
    charity and amount, made some nineteen hours apart (the second on the
    ledger the first one left), create two different transactions with the
    same id. *)
Lemma generateTransactionId_not_unique :
  let this := new_BlockchainService "2023-12-31T00:00:00.000Z" "2023-12-31T00:00:00.000Z" in
  let r1 := addDonationTransaction "donorA" "charityB" 50 EmptyString
              "2023-12-31T08:18:41.006Z" 1704010721006 this in
  let r2 := addDonationTransaction "donorA" "charityB" 50 EmptyString
              "2024-01-01T03:50:00.710Z" 1704081000710 (snd r1) in
  1704010721006 < 1704081000710 /\
  pendingTransactions (snd r2) = [fst r1; fst r2] /\
  fst r1 <> fst r2 /\
  Transaction.transactionId (fst r1) = Transaction.transactionId (fst r2).
Proof.
  vm_compute. repeat split; discriminate.
Qed.

(** ** The donations route *)

Section PostDonations.
Import Route.

(** The transaction object has no [hash] property. *)
Lemma transaction_hash_undefined (tx : Transaction.t) :
  Js.get (Transaction.props tx) "hash" = None.
Proof. reflexivity. Qed.

(** A document without [blockchainTxHash] is never saved. *)
Lemma save_without_blockchainTxHash (d : Donation) (ds : list Donation) :
  blockchainTxHash d = None -> exists e, save d ds = Thrown e.
Proof.
  intros Hnone. unfold save, validate. rewrite Hnone. cbn [required_string negb].
  destruct (negb (1 <=? 100 * amount d)); [eexists; reflexivity |].
  destruct (negb (required_string (transactionId d))); eexists; reflexivity.
Qed.

(** Whatever the amount and the message, a request of a donor for a
    charity is answered 500: the pending buffer has the new transaction,
    no block is mined and no donation is stored. *)
Lemma post_of_donor_to_charity (req : Request) (iso : string) (ms : Z)
    (iso_mine : string) (w : World) (donor charity : User) :
  findById (users w) (user_id req) = Some donor ->
  role donor = "donor" ->
  findById (users w) (req_charityId req) = Some charity ->
  role charity = "charity" ->
  post req iso ms iso_mine w
  = (Json 500 (Message "Server error"),
     mkWorld (users w) (donations w)
       (snd (addDonationTransaction (id donor) (id charity) (req_amount req)
               (default EmptyString (req_message req)) iso ms (ledger w)))).
Proof.
  intros Hdonor Hrole Hcharity Hrole'. unfold post.
  rewrite Hdonor, Hrole, Hcharity, Hrole'. cbn [String.eqb Ascii.eqb Bool.eqb negb].
  cbn [addDonationTransaction].
  match goal with
  | |- context [save ?d ?ds] =>
      destruct (save_without_blockchainTxHash d ds eq_refl) as [e ->]
  end.
  reflexivity.
Qed.

End PostDonations.

(** C5 at a valid request.  A donor, a charity, a donation of 50 on a fresh
    ledger: the handler calls [addDonationTransaction], then
    [donation.save()] throws because [blockchainTx.hash] is [undefined] where
    the schema requires [blockchainTxHash]; the answer is 500,
    [minePendingTransactions] is not reached, the chain still has its genesis
    block only and the transaction stays in the pending buffer. *)
Theorem post_valid_donation_answers_500 :
  let iso0 := "2024-01-01T00:00:00.000Z" in
  let w := Route.mkWorld
             [Route.mkUser "donorA" "donor" "Alice";
              Route.mkUser "charityB" "charity" "Bread for all"]
             [] (new_BlockchainService iso0 iso0) in
  let req := Route.mkRequest "donorA" "charityB" 50 (Some EmptyString) in
  let r := Route.post req "2024-01-01T00:00:01.000Z" 1704067201000
             "2024-01-01T00:00:02.000Z" w in
  fst r = Route.Json 500 (Route.Message "Server error") /\
  chain (Route.ledger (snd r)) = chain (Route.ledger w) /\
  length (chain (Route.ledger (snd r))) = 1%nat /\
  length (pendingTransactions (Route.ledger (snd r))) = 1%nat /\
  Route.donations (snd r) = [].
Proof.
  vm_compute. repeat split.
Qed.

(** ** The arrays by reference *)

Section References.

Implicit Types (h : Heap.heap) (l : Heap.loc) (a : Heap.array) (b : Heap.block).
Implicit Types (this : Heap.service) (v : BlockchainService).

Lemma alloc_spec a h :
  h !! fst (Heap.alloc a h) = None /\
  snd (Heap.alloc a h) = <[fst (Heap.alloc a h) := a]> h.
Proof.
  unfold Heap.alloc. cbn [fst snd]. split; [| reflexivity].
  apply not_elem_of_dom, is_fresh.
Qed.

Lemma transactions_at_insert_ne h l l' a :
  l <> l' -> Heap.transactions_at (<[l := a]> h) l' = Heap.transactions_at h l'.
Proof. intros Hne. unfold Heap.transactions_at. now rewrite lookup_insert_ne. Qed.

Lemma blocks_at_insert_ne h l l' a :
  l <> l' -> Heap.blocks_at (<[l := a]> h) l' = Heap.blocks_at h l'.
Proof. intros Hne. unfold Heap.blocks_at. now rewrite lookup_insert_ne. Qed.

Lemma block_value_insert_ne h l a b :
  l <> Heap.transactions b -> Heap.block_value (<[l := a]> h) b = Heap.block_value h b.
Proof. intros Hne. unfold Heap.block_value. now rewrite transactions_at_insert_ne. Qed.

Lemma blocks_value_insert_ne h l a (bs : list Heap.block) (vs : list Block.t) :
  Forall (fun b => l <> Heap.transactions b) bs ->
  Forall2 (fun b bv => Heap.block_value h b = Some bv) bs vs ->
  Forall2 (fun b bv => Heap.block_value (<[l := a]> h) b = Some bv) bs vs.
Proof.
  intros Hne Hvs. induction Hvs as [| b bv bs vs Hb Hvs IH]; [constructor |].
  inversion Hne as [| ? ? Hb' Hne']; subst.
  constructor; [| now apply IH].
  now rewrite block_value_insert_ne.
Qed.

(** What [view] reads, spelled out. *)
Lemma view_Some this h v :
  Heap.view this h = Some v <->
  exists bs,
    h !! Heap.chain this = Some (Heap.Blocks bs) /\
    Forall2 (fun b bv => Heap.block_value h b = Some bv) bs (chain v) /\
    h !! Heap.pendingTransactions this
      = Some (Heap.Transactions (pendingTransactions v)).
Proof.
  unfold Heap.view, Heap.blocks_at, Heap.transactions_at. split.
  - intros Hview.
    destruct (h !! Heap.chain this) as [[txs | bs] |]; try discriminate.
    cbn in Hview.
    destruct (mapM (Heap.block_value h) bs) as [blocks |] eqn:Hblocks; try discriminate.
    cbn in Hview.
    destruct (h !! Heap.pendingTransactions this) as [[txs | bs'] |]; try discriminate.
    cbn in Hview. injection Hview as <-.
    exists bs. split; [reflexivity |]. split; [| reflexivity].
    now apply mapM_Some.
  - intros (bs & -> & Hblocks & ->). cbn.
    apply mapM_Some in Hblocks. rewrite Hblocks. cbn.
    now destruct v.
Qed.

Lemma wf_chain_ne_pending this h :
  Heap.wf this h -> Heap.chain this <> Heap.pendingTransactions this.
Proof. intros (bs & txs & Hc & Hp & _) Heq. rewrite Heq in Hc. congruence. Qed.

Lemma transactions_at_Some h l (txs : list Transaction.t) :
  Heap.transactions_at h l = Some txs <-> h !! l = Some (Heap.Transactions txs).
Proof.
  unfold Heap.transactions_at. destruct (h !! l) as [[txs' | bs] |]; split; congruence.
Qed.

Lemma wf_block_ne_chain this h (bs : list Heap.block) :
  h !! Heap.chain this = Some (Heap.Blocks bs) ->
  Forall (fun b => Heap.transactions b <> Heap.pendingTransactions this /\
                   is_Some (Heap.transactions_at h (Heap.transactions b))) bs ->
  Forall (fun b => Heap.chain this <> Heap.transactions b) bs.
Proof.
  intros Hc Hall. eapply Forall_impl; [exact Hall |].
  intros b [_ [txs Htxs]] Heq. cbn in Heq.
  apply transactions_at_Some in Htxs. rewrite <- Heq in Htxs. congruence.
Qed.

(** [addDonationTransaction] on the store is [addDonationTransaction] on the
    state read from it. *)
Lemma addDonationTransaction_view (donorId charityId : string) (amount : Z)
    (message iso : string) (ms : Z) this h v :
  Heap.wf this h -> Heap.view this h = Some v ->
  exists h',
    Heap.addDonationTransaction donorId charityId amount message iso ms this h
      = Some (fst (addDonationTransaction donorId charityId amount message iso ms v), h') /\
    Heap.wf this h' /\
    Heap.view this h'
      = Some (snd (addDonationTransaction donorId charityId amount message iso ms v)).
Proof.
  intros Hwf Hview.
  pose proof (wf_chain_ne_pending _ _ Hwf) as Hcp.
  destruct Hwf as (bs & txs & Hc & Hp & Hall).
  apply view_Some in Hview as (bs' & Hc' & Hvs & Hp').
  rewrite Hc in Hc'. injection Hc' as <-.
  rewrite Hp in Hp'. injection Hp' as ->.
  unfold Heap.addDonationTransaction, Heap.push_transaction.
  rewrite (proj2 (transactions_at_Some _ _ _) Hp). cbn [mbind option_bind].
  eexists. split; [reflexivity |]. split.
  - exists bs. eexists. split; [| split].
    + now rewrite lookup_insert_ne.
    + apply lookup_insert_eq.
    + eapply Forall_impl; [exact Hall |]. intros b [Hne Hsome]. cbn.
      split; [exact Hne |]. now rewrite transactions_at_insert_ne.
  - apply view_Some. exists bs. cbn [addDonationTransaction snd chain pendingTransactions].
    split; [now rewrite lookup_insert_ne |]. split; [| apply lookup_insert_eq].
    apply blocks_value_insert_ne; [| exact Hvs].
    eapply Forall_impl; [exact Hall |]. intros b [Hne _]. cbn. congruence.
Qed.

(** [minePendingTransactions] on the store is [minePendingTransactions] on
    the state read from it: the block keeps the old pending array, the
    field gets a new one. *)
Lemma minePendingTransactions_view (iso : string) this h v :
  Heap.wf this h -> Heap.view this h = Some v -> chain_inv v ->
  exists b this' h' bv v',
    Heap.minePendingTransactions iso this h = Some (b, this', h') /\
    minePendingTransactions iso v = Returned (bv, v') /\
    Heap.transactions b = Heap.pendingTransactions this /\
    Heap.pendingTransactions this' <> Heap.pendingTransactions this /\
    Heap.block_value h' b = Some bv /\
    Heap.wf this' h' /\
    Heap.view this' h' = Some v'.
Proof.
  intros Hwf Hview (g & rest & Hchain & _).
  pose proof (wf_chain_ne_pending _ _ Hwf) as Hcp.
  destruct Hwf as (bs & txs & Hc & Hp & Hall).
  pose proof (wf_block_ne_chain _ _ _ Hc Hall) as Hbc.
  apply view_Some in Hview as (bs' & Hc' & Hvs & Hp').
  rewrite Hc in Hc'. injection Hc' as <-.
  rewrite Hp in Hp'. injection Hp' as ->.
  destruct v as [vs pending]. cbn [chain pendingTransactions] in *. subst vs.
  (* the latest block, on both sides *)
  pose proof (Forall2_last _ _ _ Hvs) as Hlast.
  rewrite last_cons in Hlast.
  set (pv := default g (last rest)) in *.
  assert (last (g :: rest) = Some pv) as Hlastv.
  { rewrite last_cons. unfold pv. now destruct (last rest). }
  assert (exists prev, last bs = Some prev /\ Heap.block_value h prev = Some pv)
    as (prev & Hprev & Hpv).
  { unfold pv. destruct (last rest); inversion Hlast; subst; eauto. }
  assert (Heap.index prev = Block.index pv /\ Heap.hash prev = Block.hash pv)
    as [Hidx Hhash].
  { unfold Heap.block_value in Hpv.
    destruct (Heap.transactions_at h (Heap.transactions prev)); [| discriminate].
    cbn in Hpv. injection Hpv as <-. split; reflexivity. }
  unfold Heap.minePendingTransactions, Heap.createNewBlock, Heap.push_block,
    Heap.blocks_at.
  rewrite Hc. cbn [mbind option_bind]. rewrite Hprev. cbn [mbind option_bind].
  rewrite (proj2 (transactions_at_Some _ _ _) Hp). cbn [mbind option_bind].
  match goal with
  | |- context [Heap.alloc ?a ?h1] =>
      destruct (alloc_spec a h1) as [Hfresh Hh2];
      destruct (Heap.alloc a h1) as [p' h2] eqn:Halloc
  end.
  cbn [fst snd] in Hfresh, Hh2. subst h2.
  assert (p' <> Heap.chain this) as Hpc.
  { intros ->. now rewrite lookup_insert_eq in Hfresh. }
  rewrite lookup_insert_ne in Hfresh by congruence.
  assert (p' <> Heap.pendingTransactions this) as Hpp by congruence.
  assert (Forall (fun b => p' <> Heap.transactions b) bs) as Hpb.
  { eapply Forall_impl; [exact Hall |]. intros b [_ [txs Htxs]] ->. cbn in Htxs.
    apply transactions_at_Some in Htxs. congruence. }
  unfold minePendingTransactions, createNewBlock, getLatestBlock.
  cbn [chain pendingTransactions]. rewrite Hlastv.
  rewrite Hidx, Hhash.
  eexists. eexists. eexists. eexists. eexists.
  split; [reflexivity |]. split; [reflexivity |].
  cbn [Heap.transactions Heap.pendingTransactions Heap.chain].
  split; [reflexivity |]. split; [exact Hpp |].
  assert (Heap.transactions_at
            (<[p' := Heap.Transactions []]>
               (<[Heap.chain this := Heap.Blocks (bs ++ [
                    Heap.mkBlock (Block.index pv + 1) iso
                      (Heap.pendingTransactions this) (Block.hash pv)
                      (calculateHash (Block.index pv + 1) (Block.hash pv) pending iso 0)
                      0])]> h))
            (Heap.pendingTransactions this) = Some pending) as Hpend.
  { rewrite !transactions_at_insert_ne by congruence.
    now apply transactions_at_Some. }
  split; [| split].
  - unfold Heap.block_value. cbn [Heap.transactions]. rewrite Hpend. reflexivity.
  - eexists. exists []. cbn [Heap.chain Heap.pendingTransactions].
    split; [| split].
    + rewrite lookup_insert_ne by congruence. apply lookup_insert_eq.
    + apply lookup_insert_eq.
    + apply Forall_app. split.
      * apply Forall_forall. intros b Hb.
        rewrite Forall_forall in Hall, Hpb, Hbc.
        destruct (Hall b Hb) as [_ Hsome]. specialize (Hpb b Hb). specialize (Hbc b Hb).
        cbn [Heap.pendingTransactions]. split; [congruence |].
        now rewrite !transactions_at_insert_ne by congruence.
      * constructor; [| constructor]. cbn [Heap.transactions Heap.pendingTransactions].
        split; [congruence |]. rewrite Hpend. eauto.
  - apply view_Some. eexists. cbn [Heap.chain Heap.pendingTransactions chain pendingTransactions].
    split; [rewrite lookup_insert_ne by congruence; apply lookup_insert_eq |].
    split; [| apply lookup_insert_eq].
    apply Forall2_app.
    + apply blocks_value_insert_ne; [exact Hpb |].
      apply blocks_value_insert_ne; [exact Hbc | exact Hvs].
    + constructor; [| constructor].
      unfold Heap.block_value. cbn [Heap.transactions]. rewrite Hpend. reflexivity.
Qed.

(** The constructor on the store builds the state of the constructor. *)
Lemma new_BlockchainService_view (iso1 iso2 : string) :
  exists this h,
    Heap.new_BlockchainService iso1 iso2 = Some (this, h) /\
    Heap.wf this h /\
    Heap.view this h = Some (new_BlockchainService iso1 iso2).
Proof.
  unfold Heap.new_BlockchainService, Heap.createGenesisBlock, new_BlockchainService,
    initializeBlockchain, createGenesisBlock.
  generalize (calculateHash 0 "0" [] iso2 0). intros genesisHash.
  eexists. eexists. split; [vm_compute; reflexivity |]. split.
  - eexists. eexists. split; [vm_compute; reflexivity |].
    split; [vm_compute; reflexivity |].
    constructor; [| constructor]. split; [vm_compute; discriminate |].
    vm_compute. eauto.
  - vm_compute. reflexivity.
Qed.

Lemma call_view (c : Call) this h v :
  Heap.wf this h -> Heap.view this h = Some v -> chain_inv v ->
  exists this' h' v',
    Heap.call c (this, h) = Some (this', h') /\
    call c v = Returned v' /\
    Heap.wf this' h' /\ Heap.view this' h' = Some v' /\ chain_inv v'.
Proof.
  intros Hwf Hview Hinv.
  destruct (call_inv c v Hinv) as (v1 & Hcall & Hinv1).
  destruct c as [donorId charityId amount message iso ms | iso].
  - destruct (addDonationTransaction_view donorId charityId amount message iso ms
                this h v Hwf Hview) as (h' & Hadd & Hwf' & Hview').
    exists this, h'. eexists. cbn [Heap.call call fst snd].
    rewrite Hadd. cbn [mbind option_bind fst snd].
    split; [reflexivity |]. split; [reflexivity |].
    split; [exact Hwf' |]. split; [exact Hview' |].
    cbn [call] in Hcall. injection Hcall as <-. exact Hinv1.
  - destruct (minePendingTransactions_view iso this h v Hwf Hview Hinv)
      as (b & this' & h' & bv & v' & Hmine & Hmine' & _ & _ & _ & Hwf' & Hview').
    exists this', h', v'. cbn [Heap.call call fst snd].
    rewrite Hmine, Hmine'. cbn [mbind option_bind fst snd].
    split; [reflexivity |]. split; [reflexivity |].
    split; [exact Hwf' |]. split; [exact Hview' |].
    cbn [call] in Hcall. rewrite Hmine' in Hcall. injection Hcall as <-. exact Hinv1.
Qed.

(** Every sequence of calls on the store is the same sequence on the state
    read from it. *)
Lemma run_view (calls : list Call) this h v :
  Heap.wf this h -> Heap.view this h = Some v -> chain_inv v ->
  exists this' h' v',
    Heap.run calls (this, h) = Some (this', h') /\
    run calls v = Returned v' /\
    Heap.wf this' h' /\ Heap.view this' h' = Some v'.
Proof.
  revert this h v. induction calls as [| c calls IH]; intros this h v Hwf Hview Hinv.
  - exists this, h, v. repeat split; assumption.
  - destruct (call_view c this h v Hwf Hview Hinv)
      as (this1 & h1 & v1 & Hcall & Hcall' & Hwf1 & Hview1 & Hinv1).
    destruct (IH this1 h1 v1 Hwf1 Hview1 Hinv1)
      as (this' & h' & v' & Hrun & Hrun' & Hwf' & Hview').
    exists this', h', v'. cbn [Heap.run run]. rewrite Hcall, Hcall'.
    cbn [mbind option_bind]. repeat split; assumption.
Qed.
End References.

(** C9, as the code has it.  In every state the ledger reaches,
    [getBlockchain()] returns an object whose [chain] and
    [pendingTransactions] are the ledger's own two arrays, not copies: read
    through them, they show the current chain and pending buffer, and a
    mutation through them is a mutation of the ledger's state (the array
    written through the returned [pendingTransactions] is the ledger's new
    pending buffer; the returned [chain] emptied is the ledger's chain
    emptied). *)
Theorem getBlockchain_shares_arrays (iso1 iso2 : string) (calls : list Call)
    (st0 : Heap.service * Heap.heap) (this : Heap.service) (h : Heap.heap) :
  Heap.new_BlockchainService iso1 iso2 = Some st0 ->
  Heap.run calls st0 = Some (this, h) ->
  let r := Heap.getBlockchain this in
  exists v,
    run calls (new_BlockchainService iso1 iso2) = Returned v /\
    Heap.view this h = Some v /\
    Heap.snap_chain r = Heap.chain this /\
    Heap.snap_pendingTransactions r = Heap.pendingTransactions this /\
    Heap.transactions_at h (Heap.snap_pendingTransactions r)
      = Some (pendingTransactions v) /\
    (Heap.blocks_at h (Heap.snap_chain r) ≫= mapM (Heap.block_value h))
      = Some (chain v) /\
    (forall txs : list Transaction.t,
        Heap.view this
          (Heap.write (Heap.snap_pendingTransactions r) (Heap.Transactions txs) h)
        = Some (mkService (chain v) txs)) /\
    Heap.view this (Heap.write (Heap.snap_chain r) (Heap.Blocks []) h)
      = Some (mkService [] (pendingTransactions v)).
Proof.
  intros Hnew Hrun r.
  destruct (new_BlockchainService_view iso1 iso2) as (this0 & h0 & Hnew0 & Hwf0 & Hview0).
  rewrite Hnew0 in Hnew. injection Hnew as <-.
  destruct (run_view calls this0 h0 _ Hwf0 Hview0 (new_BlockchainService_inv iso1 iso2))
    as (this' & h' & v & Hrun' & Hrunv & Hwf & Hview).
  rewrite Hrun' in Hrun. injection Hrun as -> ->.
  exists v. split; [exact Hrunv |]. split; [exact Hview |].
  split; [reflexivity |]. split; [reflexivity |].
  pose proof (wf_chain_ne_pending _ _ Hwf) as Hcp.
  destruct Hwf as (bs & txs0 & Hc & Hp & Hall).
  pose proof (wf_block_ne_chain _ _ _ Hc Hall) as Hbc.
  apply view_Some in Hview as (bs' & Hc' & Hvs & Hp').
  rewrite Hc in Hc'. injection Hc' as <-.
  subst r. cbn [Heap.getBlockchain Heap.snap_chain Heap.snap_pendingTransactions].
  split; [now apply transactions_at_Some |].
  split.
  { unfold Heap.blocks_at. rewrite Hc. cbn [mbind option_bind]. now apply mapM_Some. }
  split.
  - intros txs. apply view_Some. exists bs. unfold Heap.write.
    cbn [chain pendingTransactions].
    split; [rewrite lookup_insert_ne by congruence; exact Hc |].
    split; [| apply lookup_insert_eq].
    apply blocks_value_insert_ne; [| exact Hvs].
    eapply Forall_impl; [exact Hall |]. intros b [Hne _]. cbn. congruence.
  - apply view_Some. exists []. unfold Heap.write. cbn [chain pendingTransactions].
    split; [apply lookup_insert_eq |]. split; [constructor |].
    rewrite lookup_insert_ne by congruence. exact Hp'.
Qed.

(** The ledger after one donation and one mine. *)
Lemma getBlockchain_shares_arrays_witness :
  let iso0 := "2024-01-01T00:00:00.000Z" in
  let calls := [AddDonationTransaction "donorA" "charityB" 50 EmptyString
                  "2024-01-01T00:00:01.000Z" 1704067201000;
                MinePendingTransactions "2024-01-01T00:00:02.000Z"] in
  exists st0 this h,
    Heap.new_BlockchainService iso0 iso0 = Some st0 /\
    Heap.run calls st0 = Some (this, h) /\
    exists v,
      run calls (new_BlockchainService iso0 iso0) = Returned v /\
      Heap.view this h = Some v /\
      Heap.snap_chain (Heap.getBlockchain this) = Heap.chain this /\
      Heap.snap_pendingTransactions (Heap.getBlockchain this)
        = Heap.pendingTransactions this /\
      Heap.transactions_at h (Heap.snap_pendingTransactions (Heap.getBlockchain this))
        = Some (pendingTransactions v) /\
      (Heap.blocks_at h (Heap.snap_chain (Heap.getBlockchain this))
         ≫= mapM (Heap.block_value h)) = Some (chain v) /\
      (forall txs : list Transaction.t,
          Heap.view this
            (Heap.write (Heap.snap_pendingTransactions (Heap.getBlockchain this))
               (Heap.Transactions txs) h)
          = Some (mkService (chain v) txs)) /\
      Heap.view this (Heap.write (Heap.snap_chain (Heap.getBlockchain this))
                        (Heap.Blocks []) h)
        = Some (mkService [] (pendingTransactions v)).
Proof.
  intros iso0 calls. eexists. eexists. eexists.
  split; [vm_compute; reflexivity |].
  split; [vm_compute; reflexivity |].
  eapply (getBlockchain_shares_arrays iso0 iso0 calls).
  - vm_compute. reflexivity.
  - vm_compute. reflexivity.
Defined.

(** C9, as stated, fails: on a fresh ledger a caller pushes a transaction
    onto the [pendingTransactions] array that [getBlockchain()] returned; no
    method of the ledger is called, and the ledger's pending buffer, empty
    before, now holds that transaction. *)
Lemma getBlockchain_counterexample :
  let iso0 := "2024-01-01T00:00:00.000Z" in
  let tx := Transaction.mk "nobody" "attacker" 1000000 EmptyString iso0 "0" in
  exists this h h',
    Heap.new_BlockchainService iso0 iso0 = Some (this, h) /\
    Heap.push_transaction (Heap.snap_pendingTransactions (Heap.getBlockchain this)) tx h
      = Some h' /\
    pendingTransactions <$> Heap.view this h = Some [] /\
    pendingTransactions <$> Heap.view this h' = Some [tx] /\
    Heap.view this h' <> Heap.view this h.
Proof.
  intros iso0 tx. eexists. eexists. eexists.
  split; [vm_compute; reflexivity |].
  split; [vm_compute; reflexivity |].
  split; [vm_compute; reflexivity |].
  split; [vm_compute; reflexivity |].
  vm_compute. discriminate.
Qed.

(** ** What a run of calls keeps *)

Section Runs.

Lemma chain_transactions_snoc (blocks : list Block.t) (b : Block.t)
    (pending pending' : list Transaction.t) :
  chain_transactions (mkService (blocks ++ [b]) pending')
  = (chain_transactions (mkService blocks pending) ++ Block.transactions b)%list.
Proof.
  unfold chain_transactions. cbn [chain].
  rewrite map_app, concat_app. cbn [map concat]. now rewrite app_nil_r.
Qed.

(** One call moves transactions from the call to the pending buffer or from
    the pending buffer to the chain, and nothing else. *)
Lemma call_transactions (c : Call) (this this' : BlockchainService) :
  call c this = Returned this' ->
  (chain_transactions this' ++ pendingTransactions this')%list
  = (chain_transactions this ++ pendingTransactions this ++ transactions_of_calls [c])%list.
Proof.
  destruct this as [blocks pending].
  destruct c as [donorId charityId amount message iso ms | iso]; cbn [call].
  - intros H. injection H as <-. reflexivity.
  - unfold minePendingTransactions, createNewBlock.
    destruct (getLatestBlock (mkService blocks pending)) as [prev |]; [| discriminate].
    intros H. injection H as <-. cbn [pendingTransactions chain transactions_of_calls].
    rewrite (chain_transactions_snoc blocks _ pending []).
    cbn [Block.transactions]. now rewrite !app_nil_r.
Qed.

Lemma transactions_of_calls_app (calls1 calls2 : list Call) :
  transactions_of_calls (calls1 ++ calls2)
  = (transactions_of_calls calls1 ++ transactions_of_calls calls2)%list.
Proof.
  induction calls1 as [| [donorId charityId amount message iso ms | iso] calls1 IH];
    cbn [app transactions_of_calls]; [reflexivity | now rewrite IH | exact IH].
Qed.

Lemma run_transactions (calls : list Call) (this this' : BlockchainService) :
  run calls this = Returned this' ->
  (chain_transactions this' ++ pendingTransactions this')%list
  = (chain_transactions this ++ pendingTransactions this ++ transactions_of_calls calls)%list.
Proof.
  revert this. induction calls as [| c calls IH]; intros this; cbn [run].
  - intros H. injection H as <-. cbn [transactions_of_calls]. now rewrite app_nil_r.
  - destruct (call c this) as [this1 |] eqn:Hcall; [| discriminate].
    intros Hrun. rewrite (IH _ Hrun), app_assoc, (call_transactions _ _ _ Hcall).
    change (c :: calls) with ([c] ++ calls)%list.
    rewrite transactions_of_calls_app. now rewrite <- !app_assoc.
Qed.

Lemma call_chain (c : Call) (this this' : BlockchainService) :
  call c this = Returned this' ->
  exists blocks, chain this' = (chain this ++ blocks)%list /\ length blocks = mines [c].
Proof.
  destruct c as [donorId charityId amount message iso ms | iso]; cbn [call].
  - intros H. injection H as <-. exists []. cbn. now rewrite app_nil_r.
  - destruct (minePendingTransactions iso this) as [[b this1] |] eqn:Hmine; [| discriminate].
    intros H. injection H as <-.
    unfold minePendingTransactions in Hmine.
    destruct (createNewBlock (pendingTransactions this) iso this) as [b' |]; [| discriminate].
    injection Hmine as <- <-. exists [b']. split; reflexivity.
Qed.

Lemma mines_app (calls1 calls2 : list Call) :
  mines (calls1 ++ calls2) = (mines calls1 + mines calls2)%nat.
Proof.
  induction calls1 as [| [donorId charityId amount message iso ms | iso] calls1 IH];
    cbn [app mines]; [reflexivity | exact IH | now rewrite IH].
Qed.

Lemma run_chain (calls : list Call) (this this' : BlockchainService) :
  run calls this = Returned this' ->
  exists blocks, chain this' = (chain this ++ blocks)%list /\ length blocks = mines calls.
Proof.
  revert this. induction calls as [| c calls IH]; intros this; cbn [run].
  - intros H. injection H as <-. exists []. cbn. now rewrite app_nil_r.
  - destruct (call c this) as [this1 |] eqn:Hcall; [| discriminate].
    intros Hrun.
    destruct (call_chain _ _ _ Hcall) as (bs1 & Hc1 & Hl1).
    destruct (IH _ Hrun) as (bs2 & Hc2 & Hl2).
    exists (bs1 ++ bs2)%list. split.
    + now rewrite Hc2, Hc1, app_assoc.
    + rewrite length_app, Hl1, Hl2. cbn [mines].
      destruct c; cbn [mines]; lia.
Qed.

Lemma run_app (calls1 calls2 : list Call) (this : BlockchainService) :
  run (calls1 ++ calls2) this
  = match run calls1 this with
    | Returned this1 => run calls2 this1
    | Thrown e => Thrown e
    end.
Proof.
  revert this. induction calls1 as [| c calls1 IH]; intros this; cbn [app run].
  - reflexivity.
  - destruct (call c this); [apply IH | reflexivity].
Qed.

Lemma call_indexed (c : Call) (this this' : BlockchainService) :
  indexed this -> call c this = Returned this' -> indexed this'.
Proof.
  intros Hidx. destruct this as [blocks pending].
  destruct c as [donorId charityId amount message iso ms | iso]; cbn [call].
  - intros H. injection H as <-. exact Hidx.
  - unfold minePendingTransactions, createNewBlock, getLatestBlock. cbn [chain pendingTransactions].
    destruct (last blocks) as [prev |] eqn:Hlast; [| discriminate].
    intros H. injection H as <-.
    intros i b. cbn [chain]. intros Hb.
    apply last_Some in Hlast as [blocks' ->].
    destruct (decide (i < length (blocks' ++ [prev]))%nat) as [Hlt | Hge].
    + rewrite lookup_app_l in Hb by exact Hlt. now apply Hidx.
    + rewrite lookup_app_r in Hb by lia.
      destruct (i - length (blocks' ++ [prev]))%nat as [| k] eqn:Hk; [| discriminate].
      injection Hb as <-. cbn [Block.index].
      rewrite (Hidx (length blocks') prev).
      * rewrite length_app in Hge, Hk. cbn [length] in Hge, Hk. lia.
      * cbn [chain]. rewrite lookup_app_r by lia.
        now replace (length blocks' - length blocks')%nat with 0%nat by lia.
Qed.

Lemma run_indexed (calls : list Call) (this this' : BlockchainService) :
  indexed this -> run calls this = Returned this' -> indexed this'.
Proof.
  revert this. induction calls as [| c calls IH]; intros this Hidx; cbn [run].
  - intros H. injection H as <-. exact Hidx.
  - destruct (call c this) as [this1 |] eqn:Hcall; [| discriminate].
    apply IH. eapply call_indexed; eassumption.
Qed.

End Runs.

(** X6.  No transaction is lost, duplicated or reordered: after every sequence of
    calls on a fresh ledger, the transactions of the chain, block after
    block, followed by the pending buffer are exactly the transactions the
    calls of [addDonationTransaction] created, in the order of the calls. *)
Theorem transactions_are_kept_in_order (iso1 iso2 : string) (calls : list Call) :
  exists this,
    run calls (new_BlockchainService iso1 iso2) = Returned this /\
    (chain_transactions this ++ pendingTransactions this)%list
    = transactions_of_calls calls.
Proof.
  destruct (run_inv calls _ (new_BlockchainService_inv iso1 iso2)) as (this & Hrun & _).
  exists this. split; [exact Hrun |].
  now rewrite (run_transactions _ _ _ Hrun).
Qed.

(** X7.  The chain is append-only: whatever calls follow, the chain reached so far
    stays as a prefix of the later chain, block for block, and the chain has
    one block (the genesis block) more than mines were called. *)
Theorem chain_is_append_only (iso1 iso2 : string) (calls1 calls2 : list Call) :
  exists this1 this2,
    run calls1 (new_BlockchainService iso1 iso2) = Returned this1 /\
    run (calls1 ++ calls2) (new_BlockchainService iso1 iso2) = Returned this2 /\
    chain this1 `prefix_of` chain this2 /\
    length (chain this2) = S (mines (calls1 ++ calls2)).
Proof.
  destruct (run_inv calls1 _ (new_BlockchainService_inv iso1 iso2)) as (this1 & Hrun1 & Hinv1).
  destruct (run_inv calls2 _ Hinv1) as (this2 & Hrun2 & _).
  exists this1, this2. split; [exact Hrun1 |].
  assert (run (calls1 ++ calls2) (new_BlockchainService iso1 iso2) = Returned this2) as Hrun.
  { now rewrite run_app, Hrun1. }
  split; [exact Hrun |]. split.
  - destruct (run_chain _ _ _ Hrun2) as (bs & -> & _). now exists bs.
  - destruct (run_chain _ _ _ Hrun) as (bs & -> & <-). reflexivity.
Qed.

(** X8.  In every state the ledger reaches, the [index] of the block at position
    [i] of the chain is [i]. *)
Theorem block_index_is_position (iso1 iso2 : string) (calls : list Call) :
  exists this,
    run calls (new_BlockchainService iso1 iso2) = Returned this /\
    forall (i : nat) (b : Block.t),
      chain this !! i = Some b -> Block.index b = Z.of_nat i.
Proof.
  destruct (run_inv calls _ (new_BlockchainService_inv iso1 iso2)) as (this & Hrun & _).
  exists this. split; [exact Hrun |].
  refine (run_indexed calls _ this _ Hrun).
  intros [| i] b; cbn; [| discriminate]. intros H. now injection H as <-.
Qed.

(** ** Queries by address *)

Section Queries.

Variable X : string.

Lemma transactions_for_fold (txs acc : list Transaction.t) :
  fold_left (fun transactions transaction =>
               if String.eqb (Transaction.fromAddress transaction) X
                  || String.eqb (Transaction.toAddress transaction) X
               then (transactions ++ [transaction])%list else transactions)
            txs acc
  = (acc ++ filter (fun tx => Transaction.fromAddress tx = X \/ Transaction.toAddress tx = X)
                   txs)%list.
Proof.
  revert acc. induction txs as [| tx txs IH]; intros acc; cbn [fold_left].
  - now rewrite app_nil_r.
  - rewrite IH, filter_cons.
    destruct (String.eqb_spec (Transaction.fromAddress tx) X) as [Hf | Hf];
      destruct (String.eqb_spec (Transaction.toAddress tx) X) as [Ht | Ht];
      cbn [orb];
      destruct (decide (Transaction.fromAddress tx = X \/ Transaction.toAddress tx = X))
        as [Hd | Hd]; try (exfalso; tauto); try (now rewrite <- app_assoc); reflexivity.
Qed.

Lemma transactions_for_blocks (blocks : list Block.t) (acc : list Transaction.t) :
  fold_left (fun transactions block =>
               fold_left (fun transactions transaction =>
                            if String.eqb (Transaction.fromAddress transaction) X
                               || String.eqb (Transaction.toAddress transaction) X
                            then (transactions ++ [transaction])%list else transactions)
                         (Block.transactions block) transactions)
            blocks acc
  = (acc ++ filter (fun tx => Transaction.fromAddress tx = X \/ Transaction.toAddress tx = X)
                   (concat (map Block.transactions blocks)))%list.
Proof.
  revert acc. induction blocks as [| b blocks IH]; intros acc; cbn [fold_left map concat].
  - now rewrite app_nil_r.
  - rewrite IH, transactions_for_fold, filter_app. now rewrite app_assoc.
Qed.

Lemma net_app (txs1 txs2 : list Transaction.t) :
  net X (txs1 ++ txs2) = net X txs1 + net X txs2.
Proof.
  induction txs1 as [| tx txs1 IH]; [reflexivity |].
  cbn [app net foldr]. fold (net X (txs1 ++ txs2)). fold (net X txs1). lia.
Qed.

End Queries.

(** X3.  [getTransactionsForAddress(X)] returns the transactions of the chain
    that have [X] as sender or as receiver, each once, in the order of the
    chain; pending transactions are not among them. *)
Theorem getTransactionsForAddress_spec (X : string) (this : BlockchainService) :
  getTransactionsForAddress X this
  = filter (fun tx => Transaction.fromAddress tx = X \/ Transaction.toAddress tx = X)
           (chain_transactions this).
Proof.
  unfold getTransactionsForAddress, chain_transactions.
  now rewrite transactions_for_blocks.
Qed.

Section Conservation.

Variable tx : Transaction.t.

Lemma credit_not_in (addresses : list string) :
  Transaction.toAddress tx ∉ addresses ->
  foldr (fun X s => credit X tx + s) 0 addresses = 0.
Proof.
  induction addresses as [| A addresses IH]; intros Hnot; [reflexivity |].
  cbn [foldr]. rewrite IH by (intros H; apply Hnot; now right).
  unfold credit. destruct (String.eqb_spec (Transaction.toAddress tx) A) as [Heq | _];
    [exfalso; apply Hnot; rewrite Heq; now left | lia].
Qed.

Lemma credit_once (addresses : list string) :
  NoDup addresses -> Transaction.toAddress tx ∈ addresses ->
  foldr (fun X s => credit X tx + s) 0 addresses = Transaction.amount tx.
Proof.
  induction 1 as [| A addresses Hnot Hnd IH]; intros Hin.
  - now apply elem_of_nil in Hin.
  - cbn [foldr]. unfold credit at 1.
    destruct (String.eqb_spec (Transaction.toAddress tx) A) as [Heq | Hne].
    + rewrite credit_not_in by now rewrite Heq. lia.
    + apply elem_of_cons in Hin as [Heq | Hin]; [contradiction |].
      rewrite IH by exact Hin. lia.
Qed.

Lemma debit_not_in (addresses : list string) :
  Transaction.fromAddress tx ∉ addresses ->
  foldr (fun X s => debit X tx + s) 0 addresses = 0.
Proof.
  induction addresses as [| A addresses IH]; intros Hnot; [reflexivity |].
  cbn [foldr]. rewrite IH by (intros H; apply Hnot; now right).
  unfold debit. destruct (String.eqb_spec (Transaction.fromAddress tx) A) as [Heq | _];
    [exfalso; apply Hnot; rewrite Heq; now left | lia].
Qed.

Lemma debit_once (addresses : list string) :
  NoDup addresses -> Transaction.fromAddress tx ∈ addresses ->
  foldr (fun X s => debit X tx + s) 0 addresses = Transaction.amount tx.
Proof.
  induction 1 as [| A addresses Hnot Hnd IH]; intros Hin.
  - now apply elem_of_nil in Hin.
  - cbn [foldr]. unfold debit at 1.
    destruct (String.eqb_spec (Transaction.fromAddress tx) A) as [Heq | Hne].
    + rewrite debit_not_in by now rewrite Heq. lia.
    + apply elem_of_cons in Hin as [Heq | Hin]; [contradiction |].
      rewrite IH by exact Hin. lia.
Qed.

End Conservation.

Lemma net_total (addresses : list string) (txs : list Transaction.t) :
  NoDup addresses ->
  (forall tx, tx ∈ txs ->
              Transaction.fromAddress tx ∈ addresses /\ Transaction.toAddress tx ∈ addresses) ->
  foldr (fun X s => net X txs + s) 0 addresses = 0.
Proof.
  intros Hnd. induction txs as [| tx txs IH]; intros Hin.
  - clear. induction addresses as [| A addresses IHa]; [reflexivity |].
    cbn [foldr]. rewrite IHa. reflexivity.
  - assert (forall l : list string,
               foldr (fun X s => net X (tx :: txs) + s) 0 l
               = foldr (fun X s => credit X tx + s) 0 l
                 - foldr (fun X s => debit X tx + s) 0 l
                 + foldr (fun X s => net X txs + s) 0 l) as Hsplit.
    { induction l as [| A l IHl]; [reflexivity |].
      cbn [foldr]. rewrite IHl. cbn [net foldr]. fold (net A txs). lia. }
    rewrite Hsplit.
    destruct (Hin tx ltac:(left)) as [Hfrom Hto].
    rewrite credit_once, debit_once by assumption.
    rewrite IH; [lia |]. intros tx' Htx'. apply Hin. now right.
Qed.

(** X4.  The ledger creates no value: while the amounts of the chain are
    integers adding up, in absolute value, to at most 2^53, over a list of
    distinct addresses that holds every sender and every receiver of the
    chain's transactions the balances are finite and add up to zero. *)
Theorem balances_add_up_to_zero (addresses : list string) (this : BlockchainService) :
  NoDup addresses ->
  (forall tx, tx ∈ chain_transactions this ->
              Transaction.fromAddress tx ∈ addresses /\ Transaction.toAddress tx ∈ addresses) ->
  volume (chain_transactions this) <= 2 ^ 53 ->
  exists balances : list Z,
    Forall2 (fun X b => getBalanceOfAddress X this = Finite b) addresses balances /\
    foldr Z.add 0 balances = 0.
Proof.
  intros Hnd Hin Hv.
  exists (map (fun X => net X (chain_transactions this)) addresses). split.
  - clear Hnd Hin. induction addresses as [| A addresses IH]; constructor.
    + now apply balance_of_chain.
    + exact IH.
  - transitivity (foldr (fun X s => net X (chain_transactions this) + s) 0 addresses);
      [| now apply net_total].
    clear. induction addresses as [| A addresses IH]; [reflexivity |].
    cbn [map foldr]. now rewrite IH.
Qed.

(** Two donors and one charity after the two donations of the second
    scenario. *)
Lemma balances_add_up_to_zero_witness :
  let iso0 := "2024-01-01T00:00:00.000Z" in
  let tx1 := Transaction.mk "donorA" "charityB" 50 EmptyString iso0 "1" in
  let tx2 := Transaction.mk "donorC" "charityB" 70 EmptyString iso0 "2" in
  let this := mkService [Block.mk 0 iso0 [] "0" "0" 0; Block.mk 1 iso0 [tx1] "0" "1" 0;
                         Block.mk 2 iso0 [tx2] "1" "2" 0] [] in
  exists balances : list Z,
    Forall2 (fun X b => getBalanceOfAddress X this = Finite b)
            ["donorA"; "charityB"; "donorC"] balances /\
    foldr Z.add 0 balances = 0.
Proof.
  intros iso0 tx1 tx2 this.
  apply (balances_add_up_to_zero ["donorA"; "charityB"; "donorC"] this).
  - apply (bool_decide_unpack _). vm_compute. exact I.
  - intros tx Htx. cbn in Htx.
    apply elem_of_cons in Htx as [-> | Htx].
    { split; apply (bool_decide_unpack _); vm_compute; exact I. }
    apply elem_of_cons in Htx as [-> | Htx].
    { split; apply (bool_decide_unpack _); vm_compute; exact I. }
    now apply elem_of_nil in Htx.
  - apply Z.leb_le. vm_compute. reflexivity.
Defined.

(** X5.  A transaction counts in the balances from the mine on.  In every
    state the ledger reaches, while the amounts of the chain and of the
    pending buffer are integers adding up, in absolute value, to at most
    2^53: adding a transaction to the pending buffer changes no balance, and
    mining adds to every balance what the pending transactions give to and
    take from that address. *)
Theorem balance_counts_mined_transactions (iso1 iso2 : string) (calls : list Call)
    (iso : string) (X : string) (this : BlockchainService) :
  run calls (new_BlockchainService iso1 iso2) = Returned this ->
  volume (chain_transactions this ++ pendingTransactions this) <= 2 ^ 53 ->
  exists block this' balance,
    getBalanceOfAddress X this = Finite balance /\
    (forall donorId charityId amount message iso' ms,
        getBalanceOfAddress X
          (snd (addDonationTransaction donorId charityId amount message iso' ms this))
        = Finite balance) /\
    minePendingTransactions iso this = Returned (block, this') /\
    getBalanceOfAddress X this' = Finite (balance + net X (pendingTransactions this)).
Proof.
  intros Hrun Hv. rewrite volume_app in Hv.
  pose proof (volume_nonneg (pendingTransactions this)) as Hp.
  apply run_returned_inv in Hrun as (g & rest & Hc & _).
  destruct this as [blocks pending]. cbn [chain pendingTransactions] in *. subst blocks.
  assert (volume (chain_transactions (mkService (g :: rest) pending)) <= 2 ^ 53)
    as Hle by lia.
  eexists. eexists. eexists.
  split; [apply balance_of_chain; exact Hle |].
  split; [intros; rewrite balance_of_chain by exact Hle; reflexivity |].
  split; [apply minePendingTransactions_cons |].
  assert (chain_transactions
            (mkService
               ((g :: rest) ++
                [Block.mk (Block.index (default g (last rest)) + 1) iso pending
                   (Block.hash (default g (last rest)))
                   (calculateHash (Block.index (default g (last rest)) + 1)
                      (Block.hash (default g (last rest))) pending iso 0) 0]) [])
          = (chain_transactions (mkService (g :: rest) pending) ++ pending)%list) as Hct.
  { now rewrite (chain_transactions_snoc (g :: rest) _ pending []). }
  rewrite balance_of_chain by (rewrite Hct, volume_app; lia).
  f_equal. rewrite Hct. apply net_app.
Qed.

(** A donation pending on a fresh ledger. *)
Lemma balance_counts_mined_transactions_witness :
  let iso0 := "2024-01-01T00:00:00.000Z" in
  let calls := [AddDonationTransaction "donorA" "charityB" 50 EmptyString
                  "2024-01-01T00:00:01.000Z" 1704067201000] in
  exists this,
    run calls (new_BlockchainService iso0 iso0) = Returned this /\
    exists block this' balance,
    getBalanceOfAddress "charityB" this = Finite balance /\
    (forall donorId charityId amount message iso' ms,
        getBalanceOfAddress "charityB"
          (snd (addDonationTransaction donorId charityId amount message iso' ms this))
        = Finite balance) /\
    minePendingTransactions "2024-01-01T00:00:02.000Z" this = Returned (block, this') /\
    getBalanceOfAddress "charityB" this'
    = Finite (balance + net "charityB" (pendingTransactions this)).
Proof.
  intros iso0 calls. eexists.
  split; [vm_compute; reflexivity |].
  eapply (balance_counts_mined_transactions iso0 iso0 calls
            "2024-01-01T00:00:02.000Z" "charityB").
  - vm_compute. reflexivity.
  - apply Z.leb_le. vm_compute. reflexivity.
Defined.

(** ** The rolling hash as a polynomial *)

Lemma sha256_exact_shift (data : string) (hash : Z) :
  sha256_exact data hash
  = hash * 31 ^ Z.of_nat (String.length data) + sha256_exact data 0.
Proof.
  revert hash. induction data as [| c rest IH]; intros hash.
  - cbn. lia.
  - cbn [sha256_exact String.length]. rewrite IH, (IH (31 * 0 + charCode c)).
    rewrite Nat2Z.inj_succ, Z.pow_succ_r by lia. lia.
Qed.

(** X1.  [sha256] wraps to 32 bits at every character; the result is the one of
    the exact polynomial in 31 over the character codes, wrapped once at the
    end: its absolute value, in hexadecimal. *)
Theorem sha256_is_polynomial (data : string) :
  sha256 data = Number_toString16 (Z.abs (toInt32 (sha256_exact data 0))).
Proof.
  unfold sha256. destruct data as [| c rest]; [reflexivity |].
  cbn [String.length Nat.eqb]. now rewrite sha256_loop_exact.
Qed.

(** X2.  Two texts of the same length whose polynomials agree modulo 2^32 can
    replace each other anywhere inside a hashed text without changing
    [sha256]. *)
Theorem sha256_collides_in_context (s t before after : string) :
  String.length s = String.length t ->
  sha256_exact s 0 mod 2 ^ 32 = sha256_exact t 0 mod 2 ^ 32 ->
  sha256 (before ++ s ++ after) = sha256 (before ++ t ++ after).
Proof.
  intros Hlen Hmod.
  assert (forall hash, sha256_loop s hash = sha256_loop t hash) as Hloop.
  { intros hash. destruct s as [| c s'], t as [| d t']; try discriminate; [reflexivity |].
    rewrite !sha256_loop_exact. apply toInt32_congr.
    rewrite (sha256_exact_shift (String c s')), (sha256_exact_shift (String d t')).
    rewrite Hlen, <- Zplus_mod_idemp_r, Hmod, Zplus_mod_idemp_r. reflexivity. }
  unfold sha256. rewrite !string_length_app, Hlen.
  now rewrite !sha256_loop_app, Hloop.
Qed.

(** The two amounts of the tamper test, inside the text of a block. *)
Lemma sha256_collides_in_context_witness :
  sha256 ("1abc[amount:" ++ "81000710" ++ "]2024")
  = sha256 ("1abc[amount:" ++ "10721006" ++ "]2024").
Proof.
  apply (sha256_collides_in_context "81000710" "10721006" "1abc[amount:" "]2024").
  - reflexivity.
  - vm_compute. reflexivity.
Defined.

(** ** Corruptions that the check always finds, and one it never finds *)

Section Detection.

(** A stored [hash] changed to another value: the block's own hash check
    fails, or, for the genesis block, the linkage check of block 1. *)
Lemma tamper_hash_not_valid (this : BlockchainService) (i : nat) (b : Block.t)
    (h : string) :
  passes_checks (chain this) ->
  chain this !! i = Some b ->
  h <> Block.hash b ->
  (2 <= length (chain this))%nat ->
  isChainValid (tamper_hash i h this) = false.
Proof.
  intros Hpass Hb Hh Hlen. apply not_true_iff_false. intros Hvalid.
  apply isChainValid_passes in Hvalid. unfold tamper_hash in Hvalid. cbn [chain] in Hvalid.
  destruct i as [| i].
  - destruct (lookup_lt_is_Some_2 (chain this) 1%nat Hlen) as [cur Hcur].
    destruct (Hpass 1%nat cur b ltac:(lia) Hcur Hb) as [_ Hlink].
    edestruct (Hvalid 1%nat cur) as [_ Hlink']; [lia | | |].
    + rewrite list_lookup_alter_ne by lia. exact Hcur.
    + cbn [Nat.sub]. rewrite list_lookup_alter_eq, Hb. reflexivity.
    + cbn [Block.hash] in Hlink'. congruence.
  - destruct (lookup_lt_is_Some_2 (chain this) (S i - 1)%nat) as [prev Hprev].
    { apply lookup_lt_Some in Hb. lia. }
    destruct (Hpass (S i) b prev ltac:(lia) Hb Hprev) as [Hhash _].
    edestruct (Hvalid (S i)) as [Hhash' _]; [lia | | |].
    + rewrite list_lookup_alter_eq, Hb. reflexivity.
    + rewrite list_lookup_alter_ne by lia. exact Hprev.
    + unfold hash_matches in Hhash, Hhash'. cbn in Hhash'. congruence.
Qed.

(** A stored [previousHash] of a block at [i >= 1] changed to another value:
    the linkage check of that block fails. *)
Lemma tamper_previousHash_not_valid (this : BlockchainService) (i : nat) (b : Block.t)
    (h : string) :
  passes_checks (chain this) ->
  (1 <= i)%nat ->
  chain this !! i = Some b ->
  h <> Block.previousHash b ->
  isChainValid (tamper_previousHash i h this) = false.
Proof.
  intros Hpass Hi Hb Hh. apply not_true_iff_false. intros Hvalid.
  apply isChainValid_passes in Hvalid. unfold tamper_previousHash in Hvalid.
  cbn [chain] in Hvalid.
  destruct (lookup_lt_is_Some_2 (chain this) (i - 1)%nat) as [prev Hprev].
  { apply lookup_lt_Some in Hb. lia. }
  destruct (Hpass i b prev Hi Hb Hprev) as [_ Hlink].
  edestruct (Hvalid i) as [_ Hlink']; [exact Hi | | |].
  - rewrite list_lookup_alter_eq, Hb. reflexivity.
  - rewrite list_lookup_alter_ne by lia. exact Hprev.
  - cbn [Block.previousHash] in Hlink'. congruence.
Qed.

End Detection.

(** X9.  On every chain built by mining that has a mined block, changing the
    stored [hash] of any block (the genesis block included) to a different
    value makes [isChainValid()] false; no collision of the rolling hash can
    hide it. *)
Theorem tamper_hash_detected (iso1 iso2 : string) (calls : list Call)
    (this : BlockchainService) (i : nat) (b : Block.t) (h : string) :
  run calls (new_BlockchainService iso1 iso2) = Returned this ->
  (2 <= length (chain this))%nat ->
  chain this !! i = Some b ->
  h <> Block.hash b ->
  isChainValid (tamper_hash i h this) = false.
Proof.
  intros Hrun Hlen Hb Hh.
  apply run_returned_inv, chain_inv_valid, isChainValid_passes in Hrun.
  now apply (tamper_hash_not_valid this i b h).
Qed.

(** The genesis block's hash of a two-block chain replaced by another
    string. *)
Lemma tamper_hash_detected_witness :
  let iso0 := "2024-01-01T00:00:00.000Z" in
  let calls := [AddDonationTransaction "donorA" "charityB" 50 EmptyString
                  "2024-01-01T00:00:01.000Z" 1704067201000;
                MinePendingTransactions "2024-01-01T00:00:02.000Z"] in
  exists this b,
    run calls (new_BlockchainService iso0 iso0) = Returned this /\
    chain this !! 0%nat = Some b /\
    isChainValid (tamper_hash 0 "deadbeef" this) = false.
Proof.
  intros iso0 calls. eexists. eexists.
  split; [vm_compute; reflexivity |].
  split; [vm_compute; reflexivity |].
  eapply (tamper_hash_detected iso0 iso0 calls _ 0 _ "deadbeef").
  - vm_compute. reflexivity.
  - vm_compute. lia.
  - vm_compute. reflexivity.
  - vm_compute. discriminate.
Defined.

(** X10.  On every chain built by mining, changing the stored [previousHash] of a
    mined block (index at least 1) to a different value makes
    [isChainValid()] false. *)
Theorem tamper_previousHash_detected (iso1 iso2 : string) (calls : list Call)
    (this : BlockchainService) (i : nat) (b : Block.t) (h : string) :
  run calls (new_BlockchainService iso1 iso2) = Returned this ->
  (1 <= i)%nat ->
  chain this !! i = Some b ->
  h <> Block.previousHash b ->
  isChainValid (tamper_previousHash i h this) = false.
Proof.
  intros Hrun Hi Hb Hh.
  apply run_returned_inv, chain_inv_valid, isChainValid_passes in Hrun.
  now apply (tamper_previousHash_not_valid this i b h).
Qed.

Lemma tamper_previousHash_detected_witness :
  let iso0 := "2024-01-01T00:00:00.000Z" in
  let calls := [AddDonationTransaction "donorA" "charityB" 50 EmptyString
                  "2024-01-01T00:00:01.000Z" 1704067201000;
                MinePendingTransactions "2024-01-01T00:00:02.000Z"] in
  exists this b,
    run calls (new_BlockchainService iso0 iso0) = Returned this /\
    chain this !! 1%nat = Some b /\
    isChainValid (tamper_previousHash 1 "0" this) = false.
Proof.
  intros iso0 calls. eexists. eexists.
  split; [vm_compute; reflexivity |].
  split; [vm_compute; reflexivity |].
  eapply (tamper_previousHash_detected iso0 iso0 calls _ 1 _ "0").
  - vm_compute. reflexivity.
  - lia.
  - vm_compute. reflexivity.
  - vm_compute. discriminate.
Defined.

(** X11.  [isChainValid()] does not notice missing blocks: a valid chain cut after
    any number of blocks is still valid. *)
Theorem truncated_chain_is_valid (n : nat) (this : BlockchainService) :
  isChainValid this = true -> isChainValid (truncate_chain n this) = true.
Proof.
  rewrite !isChainValid_passes. unfold truncate_chain. cbn [chain].
  intros Hpass i cur prev Hi Hcur Hprev.
  apply lookup_take_Some in Hcur as [Hcur _].
  apply lookup_take_Some in Hprev as [Hprev _].
  now apply (Hpass i).
Qed.

Lemma truncated_chain_is_valid_witness :
  let iso0 := "2024-01-01T00:00:00.000Z" in
  let this :=
    mkService
      [ Block.mk 0 iso0 [] "0" "4f0998a" 0;
        Block.mk 1 "2024-01-01T00:00:02.000Z" [] "4f0998a"
          (calculateHash 1 "4f0998a" [] "2024-01-01T00:00:02.000Z" 0) 0 ] [] in
  isChainValid (truncate_chain 1 this) = true.
Proof.
  intros iso0 this. apply (truncated_chain_is_valid 1 this).
  vm_compute. reflexivity.
Defined.

(** ** The two models of the ledger agree *)

(** X12.  The ledger with its arrays in a store refines the ledger by value: every
    sequence of calls on the constructed service runs to its end in both, and
    the state read from the store through the service's two fields is the
    state the calls reach by value. *)
Theorem store_run_is_value_run (iso1 iso2 : string) (calls : list Call) :
  exists st0 this h v,
    Heap.new_BlockchainService iso1 iso2 = Some st0 /\
    Heap.run calls st0 = Some (this, h) /\
    run calls (new_BlockchainService iso1 iso2) = Returned v /\
    Heap.view this h = Some v.
Proof.
  destruct (new_BlockchainService_view iso1 iso2) as (this0 & h0 & Hnew & Hwf0 & Hview0).
  destruct (run_view calls this0 h0 _ Hwf0 Hview0 (new_BlockchainService_inv iso1 iso2))
    as (this & h & v & Hrun & Hrunv & _ & Hview).
  exists (this0, h0), this, h, v. repeat split; assumption.
Qed.

(** X13.  [minePendingTransactions] copies nothing: the mined block holds the very
    array that was the pending buffer, and the service gets a new one.  So
    the [pendingTransactions] that [getBlockchain()] returned before the mine
    is, after it, the mined block's [transactions]: a write through it
    replaces the transactions of the mined block (its stored hash stays) and
    does not touch the ledger's pending buffer. *)
Theorem mined_block_holds_the_pending_array (iso1 iso2 : string) (calls : list Call)
    (iso : string) (st0 : Heap.service * Heap.heap) (this this' : Heap.service)
    (h h' : Heap.heap) (b : Heap.block) :
  Heap.new_BlockchainService iso1 iso2 = Some st0 ->
  Heap.run calls st0 = Some (this, h) ->
  Heap.minePendingTransactions iso this h = Some (b, this', h') ->
  let r := Heap.getBlockchain this in
  Heap.transactions b = Heap.snap_pendingTransactions r /\
  Heap.pendingTransactions this' <> Heap.snap_pendingTransactions r /\
  exists bv,
    Heap.block_value h' b = Some bv /\
    forall txs : list Transaction.t,
      let h'' := Heap.write (Heap.snap_pendingTransactions r) (Heap.Transactions txs) h' in
      Heap.block_value h'' b = Some (Block.set_transactions txs bv) /\
      Heap.transactions_at h'' (Heap.pendingTransactions this') = Some [].
Proof.
  intros Hnew Hrun Hmine r.
  destruct (new_BlockchainService_view iso1 iso2) as (this0 & h0 & Hnew0 & Hwf0 & Hview0).
  rewrite Hnew0 in Hnew. injection Hnew as <-.
  destruct (run_view calls this0 h0 _ Hwf0 Hview0 (new_BlockchainService_inv iso1 iso2))
    as (this1 & h1 & v & Hrun1 & Hrunv & Hwf & Hview).
  rewrite Hrun1 in Hrun. injection Hrun as -> ->.
  assert (chain_inv v) as Hinv by (eapply run_returned_inv; exact Hrunv).
  destruct (minePendingTransactions_view iso this h v Hwf Hview Hinv)
    as (b1 & this1 & h1 & bv & v' & Hmine1 & Hminev & Hb & Hne & Hbv & _ & Hview').
  rewrite Hmine1 in Hmine. injection Hmine as -> -> ->.
  assert (pendingTransactions v' = []) as Hempty.
  { unfold minePendingTransactions in Hminev.
    destruct (createNewBlock (pendingTransactions v) iso v); [| discriminate].
    now injection Hminev as _ <-. }
  subst r. cbn [Heap.getBlockchain Heap.snap_pendingTransactions].
  split; [exact Hb |]. split; [exact Hne |].
  exists bv. split; [exact Hbv |]. intros txs. cbv zeta. unfold Heap.write. split.
  - unfold Heap.block_value in *. rewrite Hb in *.
    unfold Heap.transactions_at at 1. rewrite lookup_insert_eq. cbn [mbind option_bind].
    destruct (Heap.transactions_at h' (Heap.pendingTransactions this)); [| discriminate].
    cbn in Hbv. injection Hbv as <-. reflexivity.
  - rewrite transactions_at_insert_ne by congruence.
    apply view_Some in Hview' as (_ & _ & _ & Hp').
    apply transactions_at_Some. now rewrite Hp', Hempty.
Qed.

(** A donation is pending, a caller takes the snapshot, the ledger mines. *)
Lemma mined_block_holds_the_pending_array_witness :
  let iso0 := "2024-01-01T00:00:00.000Z" in
  let calls := [AddDonationTransaction "donorA" "charityB" 50 EmptyString
                  "2024-01-01T00:00:01.000Z" 1704067201000] in
  exists st0 this h b this' h',
    Heap.new_BlockchainService iso0 iso0 = Some st0 /\
    Heap.run calls st0 = Some (this, h) /\
    Heap.minePendingTransactions "2024-01-01T00:00:02.000Z" this h = Some (b, this', h') /\
    Heap.transactions b = Heap.snap_pendingTransactions (Heap.getBlockchain this) /\
    Heap.pendingTransactions this'
      <> Heap.snap_pendingTransactions (Heap.getBlockchain this) /\
    exists bv,
      Heap.block_value h' b = Some bv /\
      forall txs : list Transaction.t,
        let h'' := Heap.write (Heap.snap_pendingTransactions (Heap.getBlockchain this))
                     (Heap.Transactions txs) h' in
        Heap.block_value h'' b = Some (Block.set_transactions txs bv) /\
        Heap.transactions_at h'' (Heap.pendingTransactions this') = Some [].
Proof.
  intros iso0 calls. eexists. eexists. eexists. eexists. eexists. eexists.
  split; [vm_compute; reflexivity |].
  split; [vm_compute; reflexivity |].
  split; [vm_compute; reflexivity |].
  eapply (mined_block_holds_the_pending_array iso0 iso0 calls "2024-01-01T00:00:02.000Z").
  - vm_compute. reflexivity.
  - vm_compute. reflexivity.
  - vm_compute. reflexivity.
Defined.

(** ** The donations route: what it refuses and what it never does *)

(** X14.  A request whose sender is not a donor is answered 403, one whose charity
    is not a charity 404, and both leave the users, the donations and the
    ledger (chain and pending buffer) as they were. *)
Theorem post_refusals_change_nothing (req : Route.Request) (iso : string) (ms : Z)
    (iso_mine : string) (w : Route.World) :
  let donor := Route.findById (Route.users w) (Route.user_id req) in
  let charity := Route.findById (Route.users w) (Route.req_charityId req) in
  (Route.role <$> donor <> Some "donor" ->
   Route.post req iso ms iso_mine w
   = (Route.Json 403 (Route.Message "Only donors can make donations"), w)) /\
  (Route.role <$> donor = Some "donor" -> Route.role <$> charity <> Some "charity" ->
   Route.post req iso ms iso_mine w
   = (Route.Json 404 (Route.Message "Charity not found"), w)).
Proof.
  cbv zeta. unfold Route.post. split.
  - intros Hdonor.
    destruct (Route.findById (Route.users w) (Route.user_id req)) as [donor |];
      [| reflexivity].
    destruct (String.eqb_spec (Route.role donor) "donor") as [Heq | _]; [| reflexivity].
    exfalso. apply Hdonor. cbn. now rewrite Heq.
  - intros Hdonor Hcharity.
    destruct (Route.findById (Route.users w) (Route.user_id req)) as [donor |];
      [| discriminate].
    cbn in Hdonor. injection Hdonor as ->. cbn [String.eqb Ascii.eqb Bool.eqb negb].
    destruct (Route.findById (Route.users w) (Route.req_charityId req)) as [charity |];
      [| reflexivity].
    destruct (String.eqb_spec (Route.role charity) "charity") as [Heq | _]; [| reflexivity].
    exfalso. apply Hcharity. cbn. now rewrite Heq.
Qed.

(** A charity that tries to donate, and a donor who names another donor as
    the charity. *)
Lemma post_refusals_change_nothing_witness :
  let iso0 := "2024-01-01T00:00:00.000Z" in
  let w := Route.mkWorld
             [Route.mkUser "donorA" "donor" "Alice";
              Route.mkUser "charityB" "charity" "Bread for all"]
             [] (new_BlockchainService iso0 iso0) in
  Route.post (Route.mkRequest "charityB" "charityB" 50 None) iso0 1704067200000 iso0 w
  = (Route.Json 403 (Route.Message "Only donors can make donations"), w) /\
  Route.post (Route.mkRequest "donorA" "donorA" 50 None) iso0 1704067200000 iso0 w
  = (Route.Json 404 (Route.Message "Charity not found"), w).
Proof.
  intros iso0 w. split.
  - apply (proj1 (post_refusals_change_nothing
                    (Route.mkRequest "charityB" "charityB" 50 None)
                    iso0 1704067200000 iso0 w)).
    vm_compute. discriminate.
  - apply (proj2 (post_refusals_change_nothing
                    (Route.mkRequest "donorA" "donorA" 50 None)
                    iso0 1704067200000 iso0 w)).
    + vm_compute. reflexivity.
    + vm_compute. discriminate.
Defined.

Local Ltac refused_request :=
  cbn; split; [eexists; eexists; split; [reflexivity | lia] |];
  repeat split; left; reflexivity.

(** X15.  Whatever the request, the handler never answers 201, never changes the
    chain, the stored donations or the users; at most it leaves one more
    transaction in the pending buffer. *)
Theorem post_never_mines (req : Route.Request) (iso : string) (ms : Z)
    (iso_mine : string) (w : Route.World) :
  let r := Route.post req iso ms iso_mine w in
  (exists status text, fst r = Route.Json status (Route.Message text) /\ status <> 201) /\
  chain (Route.ledger (snd r)) = chain (Route.ledger w) /\
  Route.donations (snd r) = Route.donations w /\
  Route.users (snd r) = Route.users w /\
  (pendingTransactions (Route.ledger (snd r)) = pendingTransactions (Route.ledger w) \/
   exists tx, pendingTransactions (Route.ledger (snd r))
              = (pendingTransactions (Route.ledger w) ++ [tx])%list).
Proof.
  cbv zeta. unfold Route.post.
  destruct (Route.findById (Route.users w) (Route.user_id req)) as [donor |];
    [| refused_request].
  destruct (negb (String.eqb (Route.role donor) "donor")); [refused_request |].
  destruct (Route.findById (Route.users w) (Route.req_charityId req)) as [charity |];
    [| refused_request].
  destruct (negb (String.eqb (Route.role charity) "charity")); [refused_request |].
  cbn [addDonationTransaction].
  match goal with
  | |- context [Route.save ?d ?ds] =>
      destruct (save_without_blockchainTxHash d ds eq_refl) as [e ->]
  end.
  cbn. split; [eexists; eexists; split; [reflexivity | lia] |].
  repeat split. right. eexists. reflexivity.
Qed.

(** ** Fund allocation *)

(** X18.  Only the charity that received a donation can change its allocation:
    the handler never changes the users nor any other donation, and when the
    donation named in the request changes, the sender is a user of role
    charity, is the donation's charity, and the save went through. *)
Theorem allocate_only_by_recipient (req : Allocation.Request) (saved : bool)
    (w : Allocation.World) :
  let r := Allocation.allocate req saved w in
  Allocation.users (snd r) = Allocation.users w /\
  (forall id', id' <> Allocation.id req ->
               Allocation.donations (snd r) !! id' = Allocation.donations w !! id') /\
  (Allocation.donations (snd r) !! Allocation.id req
   <> Allocation.donations w !! Allocation.id req ->
   exists user donation,
     Route.findById (Allocation.users w) (Allocation.user_id req) = Some user /\
     Route.role user = "charity" /\
     Allocation.donations w !! Allocation.id req = Some donation /\
     Allocation.charity donation = Allocation.user_id req /\
     saved = true).
Proof.
  cbv zeta. unfold Allocation.allocate.
  destruct (Route.findById (Allocation.users w) (Allocation.user_id req)) as [user |];
    [| cbn; repeat split; congruence].
  destruct (String.eqb_spec (Route.role user) "charity") as [Hrole | _];
    [| cbn; repeat split; congruence].
  cbn [negb].
  destruct (Allocation.donations w !! Allocation.id req) as [donation |] eqn:Hd;
    [| cbn; repeat split; congruence].
  destruct (String.eqb_spec (Allocation.charity donation) (Allocation.user_id req))
    as [Hch | _]; [| cbn; repeat split; congruence].
  cbn [negb]. rewrite parseFloat_Number_toString.
  destruct saved; [| cbn; repeat split; congruence].
  cbn [snd Allocation.users Allocation.donations].
  split; [reflexivity |]. split.
  - intros id' Hne. now rewrite lookup_insert_ne.
  - intros _. exists user, donation. repeat split; assumption.
Qed.



(** ** The scenarios of the specification *)

(** [sha256] on a few texts: the empty one, one character, and the text of a
    transaction id. *)
Example sha256_examples :
  sha256 EmptyString = "0" /\
  sha256 "a" = "61" /\
  sha256 "ab" = "c21" /\
  sha256 "donorAcharityB501704067200000" = "61fdb65".
Proof. vm_compute. repeat split. Qed.

(** The rounding of sums: exact up to 2^53, to the even neighbour on a tie
    beyond it, an infinity beyond the largest double. *)
Example to_double_examples :
  to_double 9007199254740992 = Finite 9007199254740992 /\
  to_double 9007199254740993 = Finite 9007199254740992 /\
  to_double 9007199254740995 = Finite 9007199254740996 /\
  to_double (- 9007199254740993) = Finite (- 9007199254740992) /\
  to_double (2 ^ 1024 - 2 ^ 970 - 1) = Finite (2 ^ 1024 - 2 ^ 971) /\
  to_double (2 ^ 1024 - 2 ^ 970) = Infinity false /\
  number_sub (Infinity false) (Infinity false) = NaN.
Proof. vm_compute. repeat split. Qed.

(** One donation of 50 from donorA to charityB, then a mine: block 1 holds
    that transaction and points to the genesis block; the balances are 50 and
    -50. *)
Example scenario_one_donation :
  let iso0 := "2024-01-01T00:00:00.000Z" in
  let calls := [AddDonationTransaction "donorA" "charityB" 50 EmptyString
                  "2024-01-01T00:00:01.000Z" 1704067201000;
                MinePendingTransactions "2024-01-01T00:00:02.000Z"] in
  exists this genesisBlock block tx,
    run calls (new_BlockchainService iso0 iso0) = Returned this /\
    chain this = [genesisBlock; block] /\
    Block.index block = 1 /\
    Block.transactions block = [tx] /\
    Transaction.fromAddress tx = "donorA" /\
    Transaction.toAddress tx = "charityB" /\
    Transaction.amount tx = 50 /\
    Block.previousHash block = Block.hash genesisBlock /\
    getBalanceOfAddress "charityB" this = Finite 50 /\
    getBalanceOfAddress "donorA" this = Finite (-50) /\
    isChainValid this = true.
Proof.
  intros iso0 calls. eexists. eexists. eexists. eexists.
  split; [vm_compute; reflexivity |].
  split; [reflexivity |]. vm_compute. repeat split.
Qed.

(** Two donors give to the same charity in two mines: the chain has three
    blocks and the charity's balance is the sum of both amounts. *)
Example scenario_two_donors :
  let iso0 := "2024-01-01T00:00:00.000Z" in
  let calls := [AddDonationTransaction "donorA" "charityB" 50 EmptyString
                  "2024-01-01T00:00:01.000Z" 1704067201000;
                MinePendingTransactions "2024-01-01T00:00:02.000Z";
                AddDonationTransaction "donorC" "charityB" 70 "for bread"
                  "2024-01-01T00:00:03.000Z" 1704067203000;
                MinePendingTransactions "2024-01-01T00:00:04.000Z"] in
  exists this,
    run calls (new_BlockchainService iso0 iso0) = Returned this /\
    length (chain this) = 3%nat /\
    getBalanceOfAddress "charityB" this = Finite (50 + 70) /\
    isChainValid this = true.
Proof.
  intros iso0 calls. eexists.
  split; [vm_compute; reflexivity |]. vm_compute. repeat split.
Qed.
